(** * CAN capture analyzer: identifier decoding, capture loading and
      cycle-time classification ([data_parser.py])

    A shallow embedding of [data_parser.py].  Python integers are
    unbounded and are modelled by [Z]; Python floats are IEEE 754
    binary64 values and are modelled by Rocq's primitive floats, whose
    operations are the same binary64 operations; Python [str] values are
    modelled by [string] (the captures hold ASCII text); the [set] and
    [dict] objects of the classifier are [gset] and [gmap]. *)

From Stdlib Require Import ZArith List Floats Ascii String Lia Permutation Sorted.
From stdpp Require Import gmap strings list fin_maps pretty.

Local Open Scope Z_scope.

(** ** Identifier decoder *)

Module Decoder.

(** The four branches of [get_pgn], named after the comments that head
    them in the source. *)
Definition pgn_pdu1 (msg_id pdu_specific : Z) : Z :=
  Z.lor (Z.shiftl pdu_specific 8) (Z.land (Z.shiftr msg_id 16) 0xFF).

Definition pgn_pdu2 (msg_id pdu_specific : Z) : Z :=
  Z.lor (Z.shiftl pdu_specific 8) (Z.land (Z.shiftr msg_id 16) 0xFF).

Definition pgn_pdu1_group (msg_id pdu_specific : Z) : Z :=
  Z.lor (Z.shiftl pdu_specific 8) (Z.land (Z.shiftr msg_id 16) 0xFF).

Definition pgn_pdu2_group (msg_id pdu_specific : Z) : Z :=
  Z.lor (Z.shiftl pdu_specific 8) (Z.land (Z.shiftr msg_id 16) 0xFF).

Definition get_pgn (msg_id : Z) : Z :=
  let pdu_format := Z.land (Z.shiftr msg_id 16) 0x3 in
  let pdu_specific := Z.land (Z.shiftr msg_id 8) 0xFF in
  if pdu_format =? 0 then pgn_pdu1 msg_id pdu_specific
  else if pdu_format =? 1 then pgn_pdu2 msg_id pdu_specific
  else if pdu_format =? 2 then pgn_pdu1_group msg_id pdu_specific
  else pgn_pdu2_group msg_id pdu_specific.

Definition extract_pgn (extended_id : Z) : Z :=
  Z.land (Z.shiftr extended_id 8) 0xFFFF.

Definition get_can_id (id_hex : Z) : Z :=
  Z.land id_hex 0x1FFFFFFF.

End Decoder.

(** ** Python built-ins on strings and integers *)

Module Py.

(** The exceptions the loaders can raise. *)
Inductive error : Type :=
  | AttributeError
  | IndexError
  | TypeError
  | ValueError.

Inductive result (A : Type) : Type :=
  | Ok (a : A)
  | Raise (e : error).
Arguments Ok {A} a.
Arguments Raise {A} e.

Definition bind {A B : Type} (r : result A) (k : A -> result B) : result B :=
  match r with
  | Ok a => k a
  | Raise e => Raise e
  end.

Definition of_option {A : Type} (e : error) (o : option A) : result A :=
  match o with
  | Some a => Ok a
  | None => Raise e
  end.

(** [hex]: the digits of [n mod 16] are pushed in front of [acc] until the
    quotient is exhausted; [fuel] bounds the number of digits. *)
Definition hex_digit (d : Z) : ascii :=
  nth (Z.to_nat d) (list_ascii_of_string "0123456789abcdef") "0"%char.

Fixpoint hex_digits (fuel : nat) (n : Z) (acc : string) : string :=
  match fuel with
  | O => acc
  | S fuel' =>
      let acc' := String (hex_digit (n mod 16)) acc in
      if n <? 16 then acc' else hex_digits fuel' (n / 16) acc'
  end.

Definition hex_fuel (n : Z) : nat := S (Z.to_nat (Z.log2 n)).

Definition hex (n : Z) : string :=
  if n <? 0
  then String "-" (String "0" (String "x" (hex_digits (hex_fuel (- n)) (- n) "")))
  else String "0" (String "x" (hex_digits (hex_fuel n) n "")).

(** [int(s, 16)] on an ASCII string: optional surrounding white space, an
    optional sign, an optional [0x]/[0X] prefix, then hexadecimal digits
    in which single underscores may separate digits. *)
Definition is_space (c : ascii) : bool :=
  let n := nat_of_ascii c in
  (n =? 32)%nat || ((9 <=? n)%nat && (n <=? 13)%nat).

Definition digit_value (c : ascii) : option Z :=
  let n := Z.of_nat (nat_of_ascii c) in
  if (48 <=? n) && (n <=? 57) then Some (n - 48)
  else if (97 <=? n) && (n <=? 122) then Some (n - 87)
  else if (65 <=? n) && (n <=? 90) then Some (n - 55)
  else None.

Definition hex_value (c : ascii) : option Z :=
  match digit_value c with
  | Some d => if d <? 16 then Some d else None
  | None => None
  end.

Fixpoint lstrip (s : string) : string :=
  match s with
  | String c s' => if is_space c then lstrip s' else s
  | EmptyString => s
  end.

Definition scan_end (prev_underscore seen : bool) (acc : Z) (rest : string)
  : option (Z * string) :=
  if prev_underscore || negb seen then None else Some (acc, rest).

Fixpoint scan_digits (s : string) (prev_underscore seen : bool) (acc : Z)
  : option (Z * string) :=
  match s with
  | String c s' =>
      if Ascii.eqb c "_"
      then if prev_underscore then None else scan_digits s' true seen acc
      else match hex_value c with
           | Some d => scan_digits s' false true (acc * 16 + d)
           | None => scan_end prev_underscore seen acc s
           end
  | EmptyString => scan_end prev_underscore seen acc s
  end.

Definition starts_with (c : ascii) (s : string) : bool :=
  match s with
  | String c' _ => Ascii.eqb c' c
  | EmptyString => false
  end.

Definition tail (s : string) : string :=
  match s with
  | String _ s' => s'
  | EmptyString => s
  end.

Definition skip_sign (s : string) : bool * string :=
  if starts_with "+" s then (false, tail s)
  else if starts_with "-" s then (true, tail s)
  else (false, s).

Definition skip_prefix (s : string) : string :=
  if starts_with "0" s && (starts_with "x" (tail s) || starts_with "X" (tail s))
  then
    let s' := tail (tail s) in
    if starts_with "_" s' then tail s' else s'
  else s.

Definition int16 (s : string) : option Z :=
  let (negative, s1) := skip_sign (lstrip s) in
  let s2 := skip_prefix s1 in
  if starts_with "_" s2 then None
  else
    match scan_digits s2 false false 0 with
    | Some (v, rest) =>
        match lstrip rest with
        | EmptyString => Some (if negative then - v else v)
        | String _ _ => None
        end
    | None => None
    end.

(** [s.split(sep)] with a one-character separator: every occurrence of
    the separator ends a field, so the result is never empty. *)
Fixpoint split (sep : ascii) (s : string) : list string :=
  match s with
  | EmptyString => [EmptyString]
  | String c s' =>
      if Ascii.eqb c sep then EmptyString :: split sep s'
      else match split sep s' with
           | f :: fs => String c f :: fs
           | [] => [String c EmptyString]
           end
  end.

Notation "'let*' x ':=' r 'in' k" := (bind r (fun x => k))
  (at level 10, x name, r at level 100, k at level 200).

(** [for x in l: body], the body threading the state of the loop and an
    exception ending it. *)
Fixpoint for_each {A S : Type} (body : S -> A -> result S) (l : list A) (acc : S)
  : result S :=
  match l with
  | [] => Ok acc
  | x :: l' => let* acc' := body acc x in for_each body l' acc'
  end.

(** The values of a list of results, or the first exception in it. *)
Fixpoint collect {A : Type} (l : list (result A)) : result (list A) :=
  match l with
  | [] => Ok []
  | r :: l' => let* a := r in let* l'' := collect l' in Ok (a :: l'')
  end.

(** [l[i]] for a non-negative index. *)
Definition index {A : Type} (l : list A) (i : nat) : result A :=
  of_option IndexError (nth_error l i).

End Py.

(** ** The parsed [content.xml] document *)

Module Xml.

(** An element as [lxml] presents it: its qualified tag, its [.text] (the
    character data before the first child, [None] when there is none) and
    its child elements.  Comments and processing instructions match no
    name test and have no element children, so they are left out. *)
#[local] Unset Elimination Schemes.
Inductive element : Type :=
  | Element (tag : string) (text : option string) (children : list element).
#[local] Set Elimination Schemes.

Definition tag (e : element) : string :=
  match e with Element t _ _ => t end.

Definition text (e : element) : option string :=
  match e with Element _ x _ => x end.

Definition children (e : element) : list element :=
  match e with Element _ _ cs => cs end.

Definition table_ns : string := "urn:oasis:names:tc:opendocument:xmlns:table:1.0".
Definition text_ns : string := "urn:oasis:names:tc:opendocument:xmlns:text:1.0".

Definition qname (ns local : string) : string :=
  String "{" (ns +:+ String "}" local).

Definition is_named (name : string) (e : element) : bool :=
  String.eqb (tag e) name.

Definition is_row : element -> bool := is_named (qname table_ns "table-row").
Definition is_cell : element -> bool := is_named (qname table_ns "table-cell").
Definition is_p : element -> bool := is_named (qname text_ns "p").

(** [//table:table-row[pred]] abbreviates
    [/descendant-or-self::node()/child::table:table-row[pred]]: the
    predicate sees the position of a row among the [table:table-row]
    children of its own parent.  [child_rows] walks the children of one
    parent, counting the rows met so far; the node set comes back in
    document order. *)
Definition child_rows (descend : element -> list element) (pred : Z -> bool)
  : list element -> Z -> list element :=
  fix go (cs : list element) (position : Z) : list element :=
    match cs with
    | [] => []
    | c :: cs' =>
        if is_row c
        then (if pred (position + 1) then [c] else [])
               ++ descend c ++ go cs' (position + 1)
        else descend c ++ go cs' position
    end.

Fixpoint descendant_rows (pred : Z -> bool) (e : element) : list element :=
  match e with
  | Element _ _ cs => child_rows (descendant_rows pred) pred cs 0
  end.

(** The root element is the only child of the document node. *)
Definition xpath_rows (pred : Z -> bool) (root : element) : list element :=
  (if is_row root && pred 1 then [root] else []) ++ descendant_rows pred root.

(** [.//table:table-cell/text:p] from a row: the [text:p] children of the
    [table:table-cell] elements below the row, in document order. *)
Fixpoint paragraphs (parent_is_cell : bool) (e : element) : list element :=
  (if parent_is_cell && is_p e then [e] else [])
    ++ match e with
       | Element _ _ cs => flat_map (paragraphs (is_cell e)) cs
       end.

Definition xpath_cells (row : element) : list element :=
  flat_map (paragraphs false) (children row).

(** An element and the elements below it, in document order. *)
Fixpoint self_and_descendants (e : element) : list element :=
  e :: match e with
       | Element _ _ cs => flat_map self_and_descendants cs
       end.

(** [rows] without its first 25 members, cut after [num_rows] members:
    members 26 to [25 + num_rows], counted from 1. *)
Definition window {A : Type} (num_rows : Z) (rows : list A) : list A :=
  firstn (Z.to_nat num_rows) (skipn 25 rows).

(** No [table:table-row] at or below [e]. *)
Definition rowless (e : element) : Prop :=
  xpath_rows (fun _ => true) e = [].

(** A document with a single table: [kids] are the children of the one
    element that has rows among its children, no row holds a row, there
    is no row elsewhere in the document, and neither the table nor an
    element around it is a row. *)
Inductive single_table (kids : list element) : element -> Prop :=
  | table_here (t : string) (x : option string) :
      is_row (Element t x kids) = false ->
      Forall (fun k => descendant_rows (fun _ => true) k = []) kids ->
      single_table kids (Element t x kids)
  | table_below (t : string) (x : option string) (before : list element)
      (c : element) (after : list element) :
      is_row (Element t x (before ++ c :: after)) = false ->
      Forall rowless before -> Forall rowless after ->
      single_table kids c ->
      single_table kids (Element t x (before ++ c :: after)).

End Xml.

(** ** Capture loader and reference-set loader *)

Module Loader.
Import Py Xml.

Section Capture.

(** Python's [float] applied to a string; [None] stands for the
    [ValueError] it raises. *)
Variable float_of_string : string -> option float.

(** The statements under [if len(cells) > 0], from [cells[0].text]. *)
Definition parse_record (value : option string) : result (float * Z) :=
  let* value := of_option AttributeError value in
  let split_values := split ";" value in
  let* field1 := index split_values 1 in
  let* time_ms := of_option ValueError (float_of_string field1) in
  let* field5 := index split_values 5 in
  let* id_hex := of_option ValueError (int16 field5) in
  Ok (time_ms, id_hex).

Definition ods_row (acc : list float * list Z) (row : element)
  : result (list float * list Z) :=
  match xpath_cells row with
  | [] => Ok acc
  | cell :: _ =>
      let* r := parse_record (text cell) in
      Ok (fst acc ++ [fst r], snd acc ++ [snd r])
  end.

(** The predicate [position() > 25 and position() <= 25 + num_rows]. *)
Definition row_window (num_rows : Z) (position : Z) : bool :=
  (25 <? position) && (position <=? 25 + num_rows).

(** [parse_ods_file], from the point where [content.xml] has been read
    from the archive and parsed: [root] is [etree.fromstring(content)]. *)
Definition parse_ods_file (root : element) (num_rows : Z)
  : result (list float * list Z) :=
  let rows := xpath_rows (row_window num_rows) root in
  for_each ods_row rows ([], []).

(** What a row contributes: nothing without a cell, otherwise the record
    read from its first cell or the exception raised on it. *)
Definition row_record (row : element) : option (result (float * Z)) :=
  match xpath_cells row with
  | [] => None
  | cell :: _ => Some (parse_record (text cell))
  end.

(** The capture read from the rows [rows]. *)
Definition load_rows (rows : list element) : result (list float * list Z) :=
  let* records := collect (omap row_record rows) in
  Ok (map fst records, map snd records).

(** The loader in the words of the specification, the rows being counted
    through the document: rows 26 to [25 + num_rows] of all its rows. *)
Definition load_document_rows (root : element) (num_rows : Z)
  : result (list float * list Z) :=
  load_rows (window num_rows (xpath_rows (fun _ => true) root)).

(** A first-cell text that does not have the expected layout. *)
Definition malformed (value : option string) : Prop :=
  match value with
  | None => True
  | Some s =>
      let fields := split ";" s in
      (length fields < 6)%nat
      \/ (exists field1, nth_error fields 1 = Some field1 /\ float_of_string field1 = None)
      \/ (exists field5, nth_error fields 5 = Some field5 /\ int16 field5 = None)
  end.

End Capture.

(** [parse_pgn_file], from the parsed document on; every row is visited
    and [int] is given [cells[0].text] as it is. *)
Definition pgn_row (pgn_values : list Z) (row : element) : result (list Z) :=
  match xpath_cells row with
  | [] => Ok pgn_values
  | cell :: _ =>
      let* s := of_option TypeError (text cell) in
      let* value := of_option ValueError (int16 s) in
      Ok (pgn_values ++ [value])
  end.

Definition parse_pgn_file (root : element) : result (gset Z) :=
  let rows := xpath_rows (fun _ => true) root in
  let* pgn_values := for_each pgn_row rows [] in
  Ok (list_to_set pgn_values).

End Loader.

(** ** Cycle-time classifier and report emitter *)

Module Classifier.
Import Decoder Py.

(** Insertion sort of floats by [<=], for the median. *)
Fixpoint insert_sorted (x : float) (l : list float) : list float :=
  match l with
  | [] => [x]
  | y :: l' => if PrimFloat.leb x y then x :: l else y :: insert_sorted x l'
  end.

Definition sort (l : list float) : list float :=
  fold_right insert_sorted [] l.

Definition ascending : list float -> Prop :=
  Sorted (fun x y => PrimFloat.leb x y = true).

(** Modelled from the spec: [numpy.median], library code outside the
    repository.  It is the conventional median (the middle value of the
    sorted data, the mean of the two middle values for an even length);
    [numpy] answers NaN for empty data and for data holding a NaN. *)
Definition np_median (a : list float) : float :=
  match a with
  | [] => PrimFloat.nan
  | _ :: _ =>
      if existsb PrimFloat.is_nan a then PrimFloat.nan
      else
        let s := sort a in
        let n := length s in
        if Nat.even n
        then PrimFloat.div
               (PrimFloat.add (nth (n / 2 - 1)%nat s 0%float) (nth (n / 2)%nat s 0%float))
               2%float
        else nth (n / 2)%nat s 0%float
  end.

(** One request to the plotting collaborator: the identifier in the title
    and file name, the x values and the y values of the scatter. *)
Record figure : Type := Figure {
  figure_id : Z;
  figure_x : list float;
  figure_y : list float
}.

(** The objects [plot_data] mutates while it runs over [unique_ids].
    [median_calls] lists the arguments [np.median] was called with. *)
Record state : Type := State {
  category_A : gmap string nat;
  category_B : gset string;
  figures : list figure;
  median_calls : list (list float)
}.

Definition initial : state :=
  State ∅ ∅ [] [].

(** What [plot_data] leaves behind: the entries written to
    [category_A.txt] and [category_B.txt] (one line each), the list
    written to [blocked_IDs.txt], the three printed counts and the
    figures saved. *)
Record report : Type := Report {
  final : state;
  category_A_txt : list (string * nat);
  category_B_txt : list string;
  blocked_IDs_txt : list string;
  printed : nat * nat * nat
}.

Definition line_A (entry : string * nat) : string :=
  fst entry +:+ ": " +:+ pretty (snd entry) +:+ String (ascii_of_nat 10) "".

Definition line_B (can_id : string) : string :=
  can_id +:+ String (ascii_of_nat 10) "".

Section PlotData.

Variable time_values : list float.
Variable id_values : list Z.
Variable pgn_values : gset Z.
Variable threshold_percentage : float.

Definition filtered_time_values (unique_id : Z) : list float :=
  map snd (List.filter (fun p => fst p =? unique_id) (combine id_values time_values)).

Definition cycle_times (filtered : list float) : list float :=
  map (fun i => PrimFloat.sub (nth i filtered 0%float) (nth (i - 1)%nat filtered 0%float))
      (seq 1 (length filtered - 1)).

Definition threshold (median_cycle_time : float) : float :=
  PrimFloat.mul median_cycle_time
    (PrimFloat.add 1%float (PrimFloat.div threshold_percentage 100%float)).

Definition exceeded_count (limit : float) (cts : list float) : nat :=
  list_sum (map (fun cycle_time => if PrimFloat.ltb limit cycle_time then 1%nat else 0%nat) cts).

(** The body of [for unique_id in unique_ids]. *)
Definition body (st : state) (unique_id : Z) : state :=
  if negb ((0x800 >? unique_id) && (unique_id >=? 0)) then st
  else
    let can_id := get_can_id unique_id in
    if decide (can_id ∈ pgn_values) then st
    else
      let filtered := filtered_time_values unique_id in
      let cts := cycle_times filtered in
      let st' :=
        if (0 <? length cts)%nat
        then
          let median_cycle_time := np_median cts in
          let count := exceeded_count (threshold median_cycle_time) cts in
          let calls := median_calls st ++ [cts] in
          if (0 <? count)%nat
          then State (<[hex can_id := count]> (category_A st)) (category_B st)
                     (figures st) calls
          else State (category_A st) ({[hex can_id]} ∪ category_B st)
                     (figures st) calls
        else st in
      State (category_A st') (category_B st')
            (figures st' ++ [Figure unique_id (removelast filtered) cts])
            (median_calls st').

(** The loop, run over the distinct identifiers in the order [order]. *)
Definition classify (order : list Z) : state :=
  fold_left body order initial.

(** The guard [0x800 > int(can_id, 16) >= 0] of the two report loops. *)
Definition in_report_range (can_id : string) : result bool :=
  let* v := of_option ValueError (int16 can_id) in
  Ok ((0x800 >? v) && (v >=? 0)).

Definition write_A (written : list (string * nat)) (item : string * nat)
  : result (list (string * nat)) :=
  let* keep := in_report_range (fst item) in
  Ok (if keep then written ++ [item] else written).

Definition write_B (written : list string) (can_id : string)
  : result (list string) :=
  let* keep := in_report_range can_id in
  Ok (if keep then written ++ [can_id] else written).

(** [plot_data]; a Python [set] or [dict] is run over in the order the
    finite set or map lists its members. *)
Definition plot_data : result report :=
  let unique_ids : gset Z := list_to_set id_values in
  let st := classify (elements unique_ids) in
  let* file_A := for_each write_A (map_to_list (category_A st)) [] in
  let* file_B := for_each write_B (elements (category_B st)) [] in
  Ok (Report st file_A file_B (map hex (elements pgn_values))
             (size (category_A st), size (category_B st), size pgn_values)).

End PlotData.

(** The call of [__main__]: [threshold_percentage] keeps its default. *)
Definition default_threshold_percentage : float := 5%float.

(** *** The classification in the words of the specification *)

(** An eligible identifier: raw value in [[0, 0x800)] and masked value
    outside the reference set. *)
Definition eligible (pgn_values : gset Z) (id : Z) : Prop :=
  0 <= id < 0x800 /\ get_can_id id ∉ pgn_values.

(** Consecutive differences [t[i] - t[i-1]]. *)
Fixpoint differences (t : list float) : list float :=
  match t with
  | a :: (b :: _) as t' => PrimFloat.sub b a :: differences t'
  | _ => []
  end.

(** The number of values strictly greater than [limit]. *)
Definition exceedances (limit : float) (values : list float) : nat :=
  length (List.filter (fun v => PrimFloat.ltb limit v) values).

(** The identifiers for which the loop records an outcome: eligible, with
    at least one cycle time, and with or without an exceedance. *)
Definition flagged_by (time_values : list float) (id_values : list Z)
    (pgn_values : gset Z) (p : float) (id : Z) : Prop :=
  let cts := cycle_times (filtered_time_values time_values id_values id) in
  eligible pgn_values id /\ (0 < length cts)%nat
  /\ (0 < exceeded_count (threshold p (np_median cts)) cts)%nat.

Definition cleared_by (time_values : list float) (id_values : list Z)
    (pgn_values : gset Z) (p : float) (id : Z) : Prop :=
  let cts := cycle_times (filtered_time_values time_values id_values id) in
  eligible pgn_values id /\ (0 < length cts)%nat
  /\ exceeded_count (threshold p (np_median cts)) cts = 0%nat.

(** The two outcome variants, and the outcome recorded for a report key. *)
Inductive ClassificationOutcome : Type :=
  | Flagged (count : nat)
  | Clean.

Definition outcome (st : state) (key : string) : option ClassificationOutcome :=
  match category_A st !! key with
  | Some count => Some (Flagged count)
  | None => if decide (key ∈ category_B st) then Some Clean else None
  end.

(** The two report files in the words of the specification: disjoint, and
    together the eligible identifiers observed in the capture. *)
Definition reports_cover_eligible (time_values : list float) (id_values : list Z)
    (pgn_values : gset Z) (p : float) : Prop :=
  exists r,
    plot_data time_values id_values pgn_values p = Ok r
    /\ (forall k, ~ (k ∈ map fst (category_A_txt r) /\ k ∈ category_B_txt r))
    /\ (forall k, k ∈ map fst (category_A_txt r) \/ k ∈ category_B_txt r
                  <-> exists id, id ∈ id_values /\ eligible pgn_values id
                                 /\ k = hex (get_can_id id)).

(** Steps 3 to 7 of the specification for one identifier: its cycle
    times, the threshold at percentage [p], the exceedance count and the
    outcome; no outcome without a cycle time. *)
Definition classification (time_values : list float) (id_values : list Z)
    (p : float) (id : Z) : option ClassificationOutcome :=
  let cts := differences (filtered_time_values time_values id_values id) in
  match cts with
  | [] => None
  | _ :: _ =>
      let limit :=
        PrimFloat.mul (np_median cts)
          (PrimFloat.add 1%float (PrimFloat.div p 100%float)) in
      let count := exceedances limit cts in
      Some (if (0 <? count)%nat then Flagged count else Clean)
  end.

End Classifier.

(** ** Sample inputs *)

Module Samples.
Import Xml.

(** The fragment of Python's [float] the samples need: a run of decimal
    digits with an optional fraction, short enough for the quotient of
    two exactly represented integers to be the correctly rounded value.
    [float] itself accepts more (signs, exponents, [inf], [nan]). *)
Fixpoint decimal_digits (s : string) (acc : Z) (count : nat) : Z * nat * string :=
  match s with
  | String c s' =>
      let n := Z.of_nat (nat_of_ascii c) in
      if (48 <=? n) && (n <=? 57)
      then decimal_digits s' (acc * 10 + (n - 48)) (S count)
      else (acc, count, s)
  | EmptyString => (acc, count, s)
  end.

Definition float_of_Z (n : Z) : float :=
  PrimFloat.of_uint63 (Uint63.of_Z n).

Definition float_of_decimal (s : string) : option float :=
  let '(i, ni, rest) := decimal_digits s 0 0 in
  let '(n, k, rest') :=
    if Py.starts_with "." rest then decimal_digits (Py.tail rest) i 0
    else (i, 0%nat, rest) in
  match rest' with
  | EmptyString =>
      if (0 <? ni + k)%nat && (n <? 2 ^ 53) && (k <=? 22)%nat
      then Some (PrimFloat.div (float_of_Z n) (float_of_Z (10 ^ Z.of_nat k)))
      else None
  | String _ _ => None
  end.

Definition elem (ns local : string) (children : list element) : element :=
  Element (qname ns local) None children.

(** A table row whose single cell holds [value]. *)
Definition data_row (value : string) : element :=
  elem table_ns "table-row"
    [elem table_ns "table-cell" [Element (qname text_ns "p") (Some value) []]].

(** A row without any cell. *)
Definition empty_row : element :=
  elem table_ns "table-row" [].

Definition table (rows : list element) : element :=
  elem table_ns "table" rows.

Definition header : list element :=
  repeat (data_row "header") 25.

(** A capture with one sheet: 25 header rows and three records, a row
    without cell between the second and the third. *)
Definition one_sheet : element :=
  elem "office" "document-content"
    [table (header ++ [data_row "0;100;a;b;c;123;d";
                       data_row "1;205.5;a;b;c;0x18FEF100;d";
                       empty_row;
                       data_row "2;300;a;b;c;7ff;d"])].

(** A capture with two sheets of 26 rows each. *)
Definition two_sheets : element :=
  elem "office" "document-content"
    [table (header ++ [data_row "0;100;a;b;c;123;d"]);
     table (header ++ [data_row "1;200;a;b;c;456;d"])].

(** A capture whose second record has a malformed identifier. *)
Definition bad_identifier : element :=
  elem "office" "document-content"
    [table (header ++ [data_row "0;100;a;b;c;123;d";
                       data_row "1;200;a;b;c;xyz;d"])].

End Samples.

(** ** The program: [__main__] *)

Module Main.
Import Py Xml Loader Classifier.

(** [int(s)] on an ASCII string: as [int(s, 16)] with decimal digits and
    without prefix. *)
Definition decimal_value (c : ascii) : option Z :=
  match digit_value c with
  | Some d => if d <? 10 then Some d else None
  | None => None
  end.

Fixpoint scan_decimal (s : string) (prev_underscore seen : bool) (acc : Z)
  : option (Z * string) :=
  match s with
  | String c s' =>
      if Ascii.eqb c "_"
      then if prev_underscore then None else scan_decimal s' true seen acc
      else match decimal_value c with
           | Some d => scan_decimal s' false true (acc * 10 + d)
           | None => scan_end prev_underscore seen acc s
           end
  | EmptyString => scan_end prev_underscore seen acc s
  end.

Definition int10 (s : string) : option Z :=
  let (negative, s1) := skip_sign (lstrip s) in
  if starts_with "_" s1 then None
  else
    match scan_decimal s1 false false 0 with
    | Some (v, rest) =>
        match lstrip rest with
        | EmptyString => Some (if negative then - v else v)
        | String _ _ => None
        end
    | None => None
    end.

(** What ends a run: the usage line and exit status 1, an exception that
    nothing catches, or the reports of [plot_data]. *)
Inductive exception : Type :=
  | Unreadable (filename : string)
  | Python (e : error).

Inductive run : Type :=
  | Usage (message : string)
  | Uncaught (e : exception)
  | Finished (r : report).

Definition usage (program : string) : string :=
  "Usage: " +:+ program +:+ " <data-ods-file> <pgn-ods-file> <output-dir> <num-rows>".

Section Run.

Variable float_of_string : string -> option float.

(** The first statements of both loaders: [content.xml] read from the
    archive [filename] and parsed; [None] stands for the exception raised
    when the archive or the document cannot be read. *)
Variable read_content : string -> option element.

(** [parse_pgn_file(filename)] and [parse_ods_file(filename, num_rows)]. *)
Definition load_reference (filename : string) : run + gset Z :=
  match read_content filename with
  | None => inl (Uncaught (Unreadable filename))
  | Some root =>
      match parse_pgn_file root with
      | Raise e => inl (Uncaught (Python e))
      | Ok pgn_values => inr pgn_values
      end
  end.

Definition load_capture (filename : string) (num_rows : Z)
  : run + (list float * list Z) :=
  match read_content filename with
  | None => inl (Uncaught (Unreadable filename))
  | Some root =>
      match parse_ods_file float_of_string root num_rows with
      | Raise e => inl (Uncaught (Python e))
      | Ok lists => inr lists
      end
  end.

(** The block under [if __name__ == "__main__"], for an output directory
    that can be written to; [argv] is [sys.argv]. *)
Definition main (argv : list string) : run :=
  if negb (length argv =? 5)%nat then Usage (usage (nth 0 argv EmptyString))
  else
    let data_file := nth 1 argv EmptyString in
    let pgn_file := nth 2 argv EmptyString in
    match int10 (nth 4 argv EmptyString) with
    | None => Uncaught (Python ValueError)
    | Some num_rows =>
        match load_reference pgn_file with
        | inl stop => stop
        | inr pgn_values =>
            match load_capture data_file num_rows with
            | inl stop => stop
            | inr (time_values, id_values) =>
                match plot_data time_values id_values pgn_values
                        default_threshold_percentage with
                | Raise e => Uncaught (Python e)
                | Ok r => Finished r
                end
            end
        end
    end.

End Run.

End Main.

(** ** The reference loader, row by row *)

Module Reference.
Import Py Xml Loader.

(** What a row of the reference document contributes: nothing without a
    cell, otherwise the value read from its first cell or the exception
    raised on it. *)
Definition pgn_record (row : element) : option (result Z) :=
  match xpath_cells row with
  | [] => None
  | cell :: _ =>
      Some (let* s := of_option TypeError (text cell) in
            of_option ValueError (int16 s))
  end.

End Reference.

(** ** More sample inputs *)

Module MoreSamples.
Import Xml Samples.

(** A reference document with a repeated value and a row without cell. *)
Definition reference : element :=
  elem "office" "document-content"
    [table [data_row "7ff"; data_row "0x123"; empty_row; data_row "7FF"]].

(** A capture in which [0x123] (listed in [reference]), [0x124] and
    [0x125] occur three times each and [0x900] twice. *)
Definition capture : element :=
  elem "office" "document-content"
    [table (header ++ [data_row "0;0;a;b;c;123;d";
                       data_row "1;10;a;b;c;124;d";
                       data_row "2;20;a;b;c;125;d";
                       data_row "3;100;a;b;c;123;d";
                       data_row "4;110;a;b;c;124;d";
                       data_row "5;120;a;b;c;125;d";
                       data_row "6;150;a;b;c;900;d";
                       data_row "7;220;a;b;c;125;d";
                       data_row "8;260;a;b;c;123;d";
                       data_row "9;270;a;b;c;124;d";
                       data_row "10;300;a;b;c;900;d"])].

(** The archives of the samples, by file name. *)
Definition archives (filename : string) : option element :=
  if String.eqb filename "capture.ods" then Some capture
  else if String.eqb filename "reference.ods" then Some reference
  else if String.eqb filename "one_sheet.ods" then Some one_sheet
  else None.

Definition argv : list string :=
  ["data_parser.py"; "capture.ods"; "reference.ods"; "out"; "11"]%string.

End MoreSamples.

(** * Properties *)

Example hex_0x123 : Py.hex 0x123 = "0x123"%string.
Proof. reflexivity. Qed.

Example hex_negative : Py.hex (-255) = "-0xff"%string.
Proof. reflexivity. Qed.

Example hex_zero : Py.hex 0 = "0x0"%string.
Proof. reflexivity. Qed.

Example pgn_examples :
  map Decoder.get_pgn [0x18FEF100; 0x100; 0x10000] = [0xF1FE; 0x100; 0x1]
  /\ map Decoder.extract_pgn [0x18FEF100; 0x100; 0x10000] = [0xFEF1; 0x1; 0x100]
  /\ map Decoder.get_can_id [0x123; 0x20000123; -1] = [0x123; 0x123; 0x1FFFFFFF].
Proof. repeat split. Qed.

Example int16_examples :
  map Py.int16 ["18FEF100"; " 0x1f "; "-ff"; "1_0"; "0x_1"; "0X1F"; "+0x10"; "0_1"; "-0x_f";
                "0x"; "zz"; ""; "1__0"; "_1"; "1 2"; "- 1"; "0x-1"; "1_"; "0x__1"; "+"]%string
  = [Some 0x18FEF100; Some 31; Some (-255); Some 16; Some 1; Some 31; Some 16; Some 1;
     Some (-15);
     None; None; None; None; None; None; None; None; None; None; None].
Proof. reflexivity. Qed.

Example split_examples :
  map (Py.split ";") ["a;b;;c"; ""; ";"]%string
  = [["a"; "b"; ""; "c"]; [""]; [""; ""]]%string.
Proof. reflexivity. Qed.

Example float_of_decimal_examples :
  map Samples.float_of_decimal ["100"; "205.5"; "0.25"; "x"; ""; "."]%string
  = [Some 100%float; Some 205.5%float; Some 0.25%float; None; None; None].
Proof. vm_compute. reflexivity. Qed.

Example parse_one_sheet :
  map (Loader.parse_ods_file Samples.float_of_decimal Samples.one_sheet) [0; 1; 2; 3; 10]
  = [Py.Ok ([], []);
     Py.Ok ([100%float], [0x123]);
     Py.Ok ([100%float; 205.5%float], [0x123; 0x18FEF100]);
     Py.Ok ([100%float; 205.5%float], [0x123; 0x18FEF100]);
     Py.Ok ([100%float; 205.5%float; 300%float], [0x123; 0x18FEF100; 0x7ff])].
Proof. vm_compute. reflexivity. Qed.

Example parse_two_sheets :
  Loader.parse_ods_file Samples.float_of_decimal Samples.two_sheets 1
  = Py.Ok ([100%float; 200%float], [0x123; 0x456]).
Proof. vm_compute. reflexivity. Qed.

Example parse_malformed :
  map (Loader.parse_ods_file Samples.float_of_decimal Samples.bad_identifier) [1; 2]
  = [Py.Ok ([100%float], [0x123]); Py.Raise Py.ValueError].
Proof. vm_compute. reflexivity. Qed.

(** ** Facts about the decoder *)

Section DecoderFacts.
Import Decoder.

Lemma get_can_id_mod (id : Z) : get_can_id id = id mod 2 ^ 29.
Proof.
  unfold get_can_id. change 0x1FFFFFFF with (Z.ones 29).
  apply Z.land_ones. lia.
Qed.

Lemma get_can_id_range (id : Z) : 0 <= get_can_id id < 2 ^ 29.
Proof. rewrite get_can_id_mod. apply Z.mod_pos_bound. lia. Qed.

Lemma get_can_id_small (id : Z) : 0 <= id < 2 ^ 29 -> get_can_id id = id.
Proof. intros H. rewrite get_can_id_mod. apply Z.mod_small. exact H. Qed.

Lemma get_pgn_uniform (id : Z) :
  get_pgn id
  = Z.lor (Z.shiftl (Z.land (Z.shiftr id 8) 0xFF) 8) (Z.land (Z.shiftr id 16) 0xFF).
Proof.
  unfold get_pgn, pgn_pdu1, pgn_pdu2, pgn_pdu1_group, pgn_pdu2_group.
  repeat match goal with |- context [if ?b then _ else _] => destruct b end;
    reflexivity.
Qed.

End DecoderFacts.

(** ** Facts about [hex], [int] and [split] *)

Section PyFacts.
Import Py.

Lemma hex_digit_value (d : Z) :
  0 <= d < 16 ->
  Ascii.eqb (hex_digit d) "_" = false /\ hex_value (hex_digit d) = Some d.
Proof.
  intros H.
  assert (Hd : d = 0 \/ d = 1 \/ d = 2 \/ d = 3 \/ d = 4 \/ d = 5 \/ d = 6 \/ d = 7 \/
               d = 8 \/ d = 9 \/ d = 10 \/ d = 11 \/ d = 12 \/ d = 13 \/ d = 14 \/ d = 15)
    by lia.
  repeat (destruct Hd as [-> | Hd]; [split; reflexivity |]).
  subst d. split; reflexivity.
Qed.

Lemma scan_digits_hex_digit (d : Z) (s : string) (prev seen : bool) (acc : Z) :
  0 <= d < 16 ->
  scan_digits (String (hex_digit d) s) prev seen acc
  = scan_digits s false true (acc * 16 + d).
Proof.
  intros H. destruct (hex_digit_value d H) as [Hu Hv].
  simpl. rewrite Hu, Hv. reflexivity.
Qed.

Lemma scan_digits_hex_digits (fuel : nat) :
  forall (n : Z) (s : string) (prev seen : bool),
    0 <= n < 16 ^ Z.of_nat (S fuel) ->
    scan_digits (hex_digits (S fuel) n s) prev seen 0 = scan_digits s false true n.
Proof.
  induction fuel as [| fuel IH]; intros n s prev seen Hn.
  - change (16 ^ Z.of_nat 1) with 16 in Hn.
    assert (Hs : hex_digits 1 n s = String (hex_digit (n mod 16)) s).
    { simpl. destruct (n <? 16); reflexivity. }
    rewrite Hs, scan_digits_hex_digit by (apply Z.mod_pos_bound; lia).
    rewrite Z.mod_small by lia. reflexivity.
  - assert (Hs : hex_digits (S (S fuel)) n s
                 = if n <? 16 then String (hex_digit (n mod 16)) s
                   else hex_digits (S fuel) (n / 16) (String (hex_digit (n mod 16)) s))
      by reflexivity.
    rewrite Hs. destruct (Z.ltb_spec n 16) as [Hlt | Hge].
    + rewrite scan_digits_hex_digit by (apply Z.mod_pos_bound; lia).
      rewrite Z.mod_small by lia. reflexivity.
    + rewrite IH.
      * rewrite scan_digits_hex_digit by (apply Z.mod_pos_bound; lia).
        f_equal. pose proof (Z.div_mod n 16). lia.
      * split; [apply Z.div_pos; lia |].
        apply Z.div_lt_upper_bound; [lia |].
        rewrite Nat2Z.inj_succ, Z.pow_succ_r in Hn by lia. lia.
Qed.

Lemma hex_digits_head (fuel : nat) :
  forall (n : Z) (s : string),
    0 <= n ->
    exists c rest, hex_digits (S fuel) n s = String c rest /\ Ascii.eqb c "_" = false.
Proof.
  induction fuel as [| fuel IH]; intros n s Hn.
  - exists (hex_digit (n mod 16)), s. split.
    + simpl. destruct (n <? 16); reflexivity.
    + apply hex_digit_value, Z.mod_pos_bound. lia.
  - change (hex_digits (S (S fuel)) n s)
      with (if n <? 16 then String (hex_digit (n mod 16)) s
            else hex_digits (S fuel) (n / 16) (String (hex_digit (n mod 16)) s)).
    destruct (n <? 16).
    + exists (hex_digit (n mod 16)), s. split; [reflexivity |].
      apply hex_digit_value, Z.mod_pos_bound. lia.
    + apply IH. apply Z.div_pos; lia.
Qed.

Lemma hex_fuel_enough (n : Z) : 0 <= n -> n < 16 ^ Z.of_nat (hex_fuel n).
Proof.
  intros Hn. unfold hex_fuel.
  rewrite Nat2Z.inj_succ, Z2Nat.id by apply Z.log2_nonneg.
  destruct (Z.eq_dec n 0) as [-> | Hne].
  - reflexivity.
  - pose proof (Z.log2_spec n ltac:(lia)) as [_ Hlt].
    eapply Z.lt_le_trans; [exact Hlt |].
    apply Z.pow_le_mono_l. pose proof (Z.log2_nonneg n). lia.
Qed.

Lemma int16_digits (n : Z) (negative : bool) :
  0 <= n ->
  (let s2 := hex_digits (hex_fuel n) n "" in
   if starts_with "_" s2 then None
   else
     match scan_digits s2 false false 0 with
     | Some (v, rest) =>
         match lstrip rest with
         | EmptyString => Some (if negative then - v else v)
         | String _ _ => None
         end
     | None => None
     end) = Some (if negative then - n else n).
Proof.
  intros Hn. cbv zeta.
  destruct (hex_digits_head (Z.to_nat (Z.log2 n)) n "" Hn) as (c & rest & Hs & Hc).
  fold (hex_fuel n) in Hs.
  replace (starts_with "_" (hex_digits (hex_fuel n) n "")) with false
    by (rewrite Hs; simpl; symmetry; exact Hc).
  unfold hex_fuel.
  rewrite scan_digits_hex_digits by (split; [exact Hn | apply (hex_fuel_enough n Hn)]).
  reflexivity.
Qed.

Lemma skip_prefix_0x (s : string) :
  starts_with "_" s = false -> skip_prefix (String "0" (String "x" s)) = s.
Proof. intros H. unfold skip_prefix. cbn. rewrite H. reflexivity. Qed.

Lemma int16_0x (negative : bool) (s : string) :
  starts_with "_" s = false ->
  int16 (if negative then String "-" (String "0" (String "x" s))
         else String "0" (String "x" s))
  = match scan_digits s false false 0 with
    | Some (v, rest) =>
        match lstrip rest with
        | EmptyString => Some (if negative then - v else v)
        | String _ _ => None
        end
    | None => None
    end.
Proof.
  intros H. unfold int16.
  assert (E : skip_sign (lstrip (if negative then String "-" (String "0" (String "x" s))
                                 else String "0" (String "x" s)))
              = (negative, String "0" (String "x" s)))
    by (destruct negative; reflexivity).
  rewrite E, skip_prefix_0x, H by exact H. reflexivity.
Qed.

(** [int(hex(n), 16)] gives [n] back. *)
Lemma int16_hex (n : Z) : int16 (hex n) = Some n.
Proof.
  assert (Hshape : forall (m : Z) (negative : bool), 0 <= m ->
            int16 (if negative
                   then String "-" (String "0" (String "x" (hex_digits (hex_fuel m) m "")))
                   else String "0" (String "x" (hex_digits (hex_fuel m) m "")))
            = Some (if negative then - m else m)).
  { intros m negative Hm.
    destruct (hex_digits_head (Z.to_nat (Z.log2 m)) m "" Hm) as (c & rest & Hs & Hc).
    fold (hex_fuel m) in Hs.
    assert (Hu : starts_with "_" (hex_digits (hex_fuel m) m "") = false)
      by (rewrite Hs; exact Hc).
    rewrite int16_0x by exact Hu.
    pose proof (int16_digits m negative Hm) as H. cbv zeta in H.
    rewrite Hu in H. exact H. }
  unfold hex. destruct (Z.ltb_spec n 0) as [Hneg | Hpos].
  - rewrite (Hshape (- n) true) by lia. f_equal. lia.
  - exact (Hshape n false Hpos).
Qed.

Lemma hex_inj (a b : Z) : hex a = hex b -> a = b.
Proof.
  intros H. apply (f_equal int16) in H. rewrite !int16_hex in H.
  congruence.
Qed.

End PyFacts.

(** ** Facts about the median *)

Section MedianFacts.
Import Classifier.

Lemma SFcompare_antisym (a b : spec_float) (c : comparison) :
  SFcompare a b = Some c -> SFcompare b a = Some (CompOpp c).
Proof.
  destruct a as [sa | sa | | sa ma ea], b as [sb | sb | | sb mb eb]; cbn;
    try discriminate; intros [= <-];
    try (destruct sa; reflexivity); try (destruct sb; reflexivity);
    try (destruct sa, sb; reflexivity).
  assert (Hm : PosDef.Pos.compare_cont Eq mb ma
               = CompOpp (PosDef.Pos.compare_cont Eq ma mb))
    by (symmetry; exact (Pos.compare_cont_antisym ma mb Eq)).
  destruct sa, sb; try reflexivity;
    rewrite (Z.compare_antisym ea eb); destruct (ea ?= eb); cbn; try reflexivity;
    rewrite Hm; reflexivity.
Qed.

Lemma not_nan_compare (x y : float) :
  PrimFloat.is_nan x = false -> PrimFloat.is_nan y = false ->
  exists c, SFcompare (Prim2SF x) (Prim2SF y) = Some c.
Proof.
  unfold PrimFloat.is_nan. intros Hx Hy.
  apply negb_false_iff in Hx, Hy. rewrite FloatAxioms.eqb_spec in Hx, Hy. unfold SFeqb in Hx, Hy.
  destruct (Prim2SF x) as [sx | sx | | sx mx ex], (Prim2SF y) as [sy | sy | | sy my ey];
    cbn in Hx, Hy |- *; try discriminate; eexists; reflexivity.
Qed.

(** On floats other than NaN, [<=] is total. *)
Lemma leb_total (x y : float) :
  PrimFloat.is_nan x = false -> PrimFloat.is_nan y = false ->
  PrimFloat.leb x y = false -> PrimFloat.leb y x = true.
Proof.
  intros Hx Hy. rewrite !FloatAxioms.leb_spec. unfold SFleb.
  destruct (not_nan_compare x y Hx Hy) as (c & Hc).
  rewrite Hc, (SFcompare_antisym _ _ _ Hc).
  destruct c; cbn; congruence.
Qed.

Lemma insert_sorted_perm (x : float) (l : list float) :
  Permutation (insert_sorted x l) (x :: l).
Proof.
  induction l as [| y l IH]; cbn; [reflexivity |].
  destruct (PrimFloat.leb x y); [reflexivity |].
  rewrite IH. apply perm_swap.
Qed.

Lemma sort_perm (l : list float) : Permutation (sort l) l.
Proof.
  induction l as [| x l IH]; cbn; [reflexivity |].
  rewrite insert_sorted_perm, IH. reflexivity.
Qed.

Lemma sort_length (l : list float) : length (sort l) = length l.
Proof. apply Permutation_length, sort_perm. Qed.

Lemma insert_sorted_ascending (x : float) (l : list float) :
  PrimFloat.is_nan x = false ->
  Forall (fun y => PrimFloat.is_nan y = false) l ->
  ascending l -> ascending (insert_sorted x l).
Proof.
  intros Hx Hl Hs. induction Hs as [| y l Hs IH Hd]; cbn.
  - repeat constructor.
  - apply Forall_cons_1 in Hl as [Hy Hl].
    destruct (PrimFloat.leb x y) eqn:Hxy.
    + constructor; [constructor; assumption | constructor; exact Hxy].
    + constructor; [apply IH, Hl |].
      destruct Hd as [| z l Hyz]; cbn.
      * constructor. apply leb_total; assumption.
      * destruct (PrimFloat.leb x z); constructor;
          [apply leb_total; assumption | exact Hyz].
Qed.

Lemma sort_ascending (l : list float) :
  Forall (fun y => PrimFloat.is_nan y = false) l -> ascending (sort l).
Proof.
  induction 1 as [| x l Hx Hl IH]; cbn; [constructor |].
  apply insert_sorted_ascending; [exact Hx | | exact IH].
  apply Forall_forall. intros y Hy.
  rewrite Forall_forall in Hl. apply Hl.
  apply list_elem_of_In. apply list_elem_of_In in Hy.
  apply (Permutation_in _ (sort_perm l)), Hy.
Qed.

Lemma no_nan_Forall (l : list float) :
  existsb PrimFloat.is_nan l = false ->
  Forall (fun y => PrimFloat.is_nan y = false) l.
Proof.
  induction l as [| x l IH]; cbn; [constructor |].
  intros H. apply orb_false_iff in H as [Hx Hl]. constructor; auto.
Qed.

(** The median of data without NaN: the middle value of the sorted data
    for an odd length, the mean of the two middle values for an even
    length. *)
Lemma np_median_even (l : list float) (k : nat) :
  existsb PrimFloat.is_nan l = false -> length l = (2 * k)%nat -> (0 < k)%nat ->
  np_median l
  = PrimFloat.div (PrimFloat.add (nth (k - 1)%nat (sort l) 0%float) (nth k (sort l) 0%float))
                  2%float.
Proof.
  intros Hnan Hlen Hk. unfold np_median.
  destruct l as [| x l]; [cbn in Hlen; lia |].
  rewrite Hnan. cbv zeta. rewrite sort_length, Hlen.
  rewrite Nat.even_mul. cbn [Nat.even orb].
  replace (2 * k / 2)%nat with k by (symmetry; rewrite Nat.mul_comm; apply Nat.div_mul; lia).
  reflexivity.
Qed.

Lemma np_median_odd (l : list float) (k : nat) :
  existsb PrimFloat.is_nan l = false -> length l = (2 * k + 1)%nat ->
  np_median l = nth k (sort l) 0%float.
Proof.
  intros Hnan Hlen. unfold np_median.
  destruct l as [| x l]; [cbn in Hlen; lia |].
  rewrite Hnan. cbv zeta. rewrite sort_length, Hlen.
  replace (Nat.even (2 * k + 1)) with false
    by (symmetry; rewrite Nat.add_1_r, Nat.even_succ, Nat.odd_mul; reflexivity).
  replace ((2 * k + 1) / 2)%nat with k
    by (symmetry; rewrite Nat.mul_comm, Nat.add_comm; rewrite Nat.div_add by lia; reflexivity).
  reflexivity.
Qed.

End MedianFacts.

(** ** Facts about the classifier *)

Section ClassifierFacts.
Import Decoder Py Classifier.

Lemma cycle_times_differences (f : list float) : cycle_times f = differences f.
Proof.
  unfold cycle_times. induction f as [| a [| b t] IH]; [reflexivity .. |].
  change (differences (a :: b :: t)) with (PrimFloat.sub b a :: differences (b :: t)).
  rewrite <- IH. cbn [length]. rewrite !Nat.sub_succ, !Nat.sub_0_r.
  cbn [seq map nth Nat.sub]. f_equal.
  rewrite <- seq_shift, map_map. apply map_ext_in.
  intros i Hi. apply in_seq in Hi.
  destruct i as [| i]; [lia |]. cbn [nth Nat.sub]. rewrite Nat.sub_0_r. reflexivity.
Qed.

Lemma differences_length (f : list float) :
  length (differences f) = (length f - 1)%nat.
Proof.
  rewrite <- cycle_times_differences. unfold cycle_times.
  rewrite length_map, length_seq. reflexivity.
Qed.

Lemma exceeded_count_exceedances (limit : float) (cts : list float) :
  exceeded_count limit cts = exceedances limit cts.
Proof.
  unfold exceeded_count, exceedances.
  induction cts as [| c cts IH]; [reflexivity |].
  cbn [map list_sum List.filter fold_right].
  change (fold_right Nat.add 0%nat ?l) with (list_sum l). rewrite IH.
  destruct (PrimFloat.ltb limit c); reflexivity.
Qed.

End ClassifierFacts.

Section ClassifyFacts.
Import Decoder Py Classifier.

Variable time_values : list float.
Variable id_values : list Z.
Variable pgn_values : gset Z.
Variable p : float.

Local Abbreviation cts id := (cycle_times (filtered_time_values time_values id_values id)).
Local Abbreviation count id := (exceeded_count (threshold p (np_median (cts id))) (cts id)).
Local Abbreviation body' := (body time_values id_values pgn_values p).
Local Abbreviation classify' := (classify time_values id_values pgn_values p).
Local Abbreviation flagged_by' := (flagged_by time_values id_values pgn_values p).
Local Abbreviation cleared_by' := (cleared_by time_values id_values pgn_values p).

Lemma range_guard (id : Z) :
  negb ((0x800 >? id) && (id >=? 0)) = false <-> 0 <= id < 0x800.
Proof.
  rewrite Z.gtb_ltb, Z.geb_leb.
  destruct (Z.ltb_spec id 0x800), (Z.leb_spec 0 id); cbn; split;
    first [lia | discriminate | reflexivity].
Qed.

Lemma body_not_eligible (st : state) (id : Z) :
  ~ eligible pgn_values id -> body' st id = st.
Proof.
  intros Hne. unfold body.
  destruct (negb ((0x800 >? id) && (id >=? 0))) eqn:Hg; [reflexivity |].
  apply range_guard in Hg.
  destruct (decide (get_can_id id ∈ pgn_values)) as [Hin | Hnin]; [reflexivity |].
  exfalso. apply Hne. split; assumption.
Qed.

Lemma body_eligible (st : state) (id : Z) :
  eligible pgn_values id ->
  body' st id =
    let st' :=
      if (0 <? length (cts id))%nat
      then
        if (0 <? count id)%nat
        then State (<[hex (get_can_id id) := count id]> (category_A st)) (category_B st)
                   (figures st) (median_calls st ++ [cts id])
        else State (category_A st) ({[hex (get_can_id id)]} ∪ category_B st)
                   (figures st) (median_calls st ++ [cts id])
      else st in
    State (category_A st') (category_B st')
          (figures st' ++ [Figure id (removelast (filtered_time_values time_values id_values id))
                                  (cts id)])
          (median_calls st').
Proof.
  intros [Hr Hp]. unfold body.
  apply range_guard in Hr. rewrite Hr.
  destruct (decide (get_can_id id ∈ pgn_values)) as [Hin | _]; [contradiction |].
  reflexivity.
Qed.

(** The three ways through the body for an eligible identifier (no cycle
    time, an exceedance, none) and the way past it, each closed by
    computing the field at hand. *)
Ltac body_cases id :=
  let He := fresh "He" in
  destruct (decide (eligible pgn_values id)) as [He | He];
  [ rewrite body_eligible by exact He; cbv zeta;
    destruct (Nat.ltb_spec 0 (length (cts id)));
    [ destruct (Nat.ltb_spec 0 (count id)) | ];
    cbn [category_A category_B median_calls]; case_decide;
    first [reflexivity | exfalso; intuition lia]
  | rewrite body_not_eligible by exact He;
    case_decide; [exfalso; tauto | reflexivity] ].

Lemma body_category_A (st : state) (id : Z) :
  category_A (body' st id)
  = if decide (flagged_by' id)
    then <[hex (get_can_id id) := count id]> (category_A st)
    else category_A st.
Proof.
  unfold flagged_by.
  body_cases id.
Qed.

Lemma body_category_B (st : state) (id : Z) :
  category_B (body' st id)
  = if decide (cleared_by' id)
    then {[hex (get_can_id id)]} ∪ category_B st
    else category_B st.
Proof.
  unfold cleared_by.
  body_cases id.
Qed.

Lemma body_median_calls (st : state) (id : Z) :
  median_calls (body' st id)
  = if decide (eligible pgn_values id /\ (0 < length (cts id))%nat)
    then median_calls st ++ [cts id]
    else median_calls st.
Proof.
  body_cases id.
Qed.

Lemma body_figures (st : state) (id : Z) :
  figures (body' st id)
  = if decide (eligible pgn_values id)
    then figures st
           ++ [Figure id (removelast (filtered_time_values time_values id_values id)) (cts id)]
    else figures st.
Proof.
  case_decide as He.
  - rewrite body_eligible by exact He. cbv zeta.
    destruct (0 <? length (cts id))%nat; [destruct (0 <? count id)%nat |]; reflexivity.
  - rewrite body_not_eligible by exact He. reflexivity.
Qed.

Lemma classify_snoc (order : list Z) (id : Z) :
  classify' (order ++ [id]) = body' (classify' order) id.
Proof. unfold classify. rewrite fold_left_app. reflexivity. Qed.


Lemma eligible_can_id (id : Z) : eligible pgn_values id -> get_can_id id = id.
Proof. intros [Hr _]. apply get_can_id_small. lia. Qed.

Lemma eligible_key_inj (id1 id2 : Z) :
  eligible pgn_values id1 -> eligible pgn_values id2 ->
  hex (get_can_id id1) = hex (get_can_id id2) -> id1 = id2.
Proof.
  intros H1 H2 Hk. apply hex_inj in Hk.
  rewrite !eligible_can_id in Hk by assumption. exact Hk.
Qed.

Lemma classify_category_A (order : list Z) (k : string) (c : nat) :
  category_A (classify' order) !! k = Some c
  <-> exists id, id ∈ order /\ flagged_by' id
                 /\ k = hex (get_can_id id) /\ c = count id.
Proof.
  induction order as [| x order IH] using rev_ind.
  - cbn. rewrite lookup_empty. split; [discriminate |].
    intros (id & Hin & _). inversion Hin.
  - rewrite classify_snoc, body_category_A.
    assert (Hold : (exists id, id ∈ order /\ flagged_by' id
                               /\ k = hex (get_can_id id) /\ c = count id)
                   -> exists id, id ∈ order ++ [x] /\ flagged_by' id
                                 /\ k = hex (get_can_id id) /\ c = count id).
    { intros (id & Hin & H). exists id. split; [| exact H].
      apply elem_of_app. left. exact Hin. }
    case_decide as Hx.
    + rewrite lookup_insert. case_decide as Hk.
      * split.
        -- intros [= <-]. exists x. split; [| auto].
           apply elem_of_app. right. apply list_elem_of_singleton. reflexivity.
        -- intros (id & _ & Hid & -> & ->). f_equal.
           assert (x = id) as ->; [| reflexivity].
           apply eligible_key_inj; [apply Hx | apply Hid | exact Hk].
      * rewrite IH. split; [exact Hold |].
        intros (id & Hin & Hid & Hkey & Hc).
        apply elem_of_app in Hin as [Hin | Hin]; [exists id; auto |].
        apply list_elem_of_singleton in Hin. subst id. congruence.
    + rewrite IH. split; [exact Hold |].
      intros (id & Hin & Hid & Hkey & Hc).
      apply elem_of_app in Hin as [Hin | Hin]; [exists id; auto |].
      apply list_elem_of_singleton in Hin. subst id. contradiction.
Qed.

Lemma classify_category_B (order : list Z) (k : string) :
  k ∈ category_B (classify' order)
  <-> exists id, id ∈ order /\ cleared_by' id /\ k = hex (get_can_id id).
Proof.
  induction order as [| x order IH] using rev_ind.
  - cbn. split; [intros H; exfalso; revert H; apply not_elem_of_empty |].
    intros (id & Hin & _). inversion Hin.
  - rewrite classify_snoc, body_category_B.
    case_decide as Hx.
    + rewrite elem_of_union, elem_of_singleton, IH. split.
      * intros [-> | (id & Hin & H)].
        -- exists x. split; [| auto].
           apply elem_of_app. right. apply list_elem_of_singleton. reflexivity.
        -- exists id. split; [apply elem_of_app; left; exact Hin | exact H].
      * intros (id & Hin & Hid & Hkey).
        apply elem_of_app in Hin as [Hin | Hin]; [right; exists id; auto |].
        apply list_elem_of_singleton in Hin. subst id. left. exact Hkey.
    + rewrite IH. split.
      * intros (id & Hin & H). exists id.
        split; [apply elem_of_app; left; exact Hin | exact H].
      * intros (id & Hin & Hid & Hkey).
        apply elem_of_app in Hin as [Hin | Hin]; [exists id; auto |].
        apply list_elem_of_singleton in Hin. subst id. contradiction.
Qed.

Lemma classify_median_calls (order : list Z) :
  Forall (fun a => a <> []) (median_calls (classify' order)).
Proof.
  induction order as [| x order IH] using rev_ind.
  - constructor.
  - rewrite classify_snoc, body_median_calls.
    case_decide as Hx; [| exact IH].
    apply Forall_app. split; [exact IH |].
    constructor; [| constructor].
    destruct Hx as [_ Hlen]. intros E. rewrite E in Hlen. cbn in Hlen. lia.
Qed.

Lemma classify_figures (order : list Z) :
  map figure_id (figures (classify' order))
  = List.filter (fun id => bool_decide (eligible pgn_values id)) order.
Proof.
  induction order as [| x order IH] using rev_ind; [reflexivity |].
  rewrite classify_snoc, body_figures, List.filter_app. cbn [List.filter].
  case_decide as Hx.
  - rewrite bool_decide_true, map_app, IH by exact Hx. reflexivity.
  - rewrite bool_decide_false, app_nil_r by exact Hx. exact IH.
Qed.

(** The two categories do not depend on the order in which the loop meets
    the identifiers. *)
Lemma classify_order_irrelevant (order1 order2 : list Z) :
  (forall id, id ∈ order1 <-> id ∈ order2) ->
  category_A (classify' order1) = category_A (classify' order2)
  /\ category_B (classify' order1) = category_B (classify' order2).
Proof.
  intros Hsame. split.
  - apply map_eq. intros k. apply option_eq. intros c.
    rewrite !classify_category_A.
    split; intros (id & Hin & H); exists id; (split; [apply Hsame, Hin | exact H]).
  - apply set_eq. intros k. rewrite !classify_category_B.
    split; intros (id & Hin & H); exists id; (split; [apply Hsame, Hin | exact H]).
Qed.


(** An identifier is flagged or cleared, never both. *)
Lemma flagged_cleared_exclusive (id1 id2 : Z) :
  flagged_by' id1 -> cleared_by' id2 ->
  hex (get_can_id id1) <> hex (get_can_id id2).
Proof.
  intros H1 H2 Hk.
  assert (id1 = id2) as -> by (apply eligible_key_inj; [apply H1 | apply H2 | exact Hk]).
  destruct H1 as (_ & _ & Hpos), H2 as (_ & _ & Hzero).
  cbv zeta in Hpos, Hzero. lia.
Qed.


Lemma in_report_range_hex (id : Z) :
  in_report_range (hex id) = Ok ((0x800 >? id) && (id >=? 0)).
Proof. unfold in_report_range. rewrite int16_hex. reflexivity. Qed.

Lemma in_report_range_eligible (id : Z) :
  eligible pgn_values id -> in_report_range (hex (get_can_id id)) = Ok true.
Proof.
  intros He. rewrite eligible_can_id, in_report_range_hex by exact He.
  destruct He as [Hr _]. apply range_guard in Hr.
  apply negb_false_iff in Hr. rewrite Hr. reflexivity.
Qed.

Lemma for_each_write_A (items acc : list (string * nat)) :
  (forall item, item ∈ items -> in_report_range (fst item) = Ok true) ->
  for_each write_A items acc = Ok (acc ++ items).
Proof.
  revert acc. induction items as [| item items IH]; intros acc Hall.
  - cbn. rewrite app_nil_r. reflexivity.
  - cbn [for_each]. unfold write_A at 1.
    rewrite (Hall item) by apply list_elem_of_here. cbn [bind].
    rewrite IH by (intros i Hi; apply Hall, list_elem_of_further, Hi).
    rewrite <- app_assoc. reflexivity.
Qed.

Lemma for_each_write_B (items acc : list string) :
  (forall item, item ∈ items -> in_report_range item = Ok true) ->
  for_each write_B items acc = Ok (acc ++ items).
Proof.
  revert acc. induction items as [| item items IH]; intros acc Hall.
  - cbn. rewrite app_nil_r. reflexivity.
  - cbn [for_each]. unfold write_B at 1.
    rewrite (Hall item) by apply list_elem_of_here. cbn [bind].
    rewrite IH by (intros i Hi; apply Hall, list_elem_of_further, Hi).
    rewrite <- app_assoc. reflexivity.
Qed.

(** [plot_data] raises nothing, and both report loops write every entry
    of their category: the range guard holds for every key. *)
Lemma plot_data_Ok :
  let st := classify' (elements (list_to_set id_values : gset Z)) in
  plot_data time_values id_values pgn_values p
  = Ok (Report st (map_to_list (category_A st)) (elements (category_B st))
               (map hex (elements pgn_values))
               (size (category_A st), size (category_B st), size pgn_values)).
Proof.
  cbv zeta. unfold plot_data.
  rewrite for_each_write_A.
  - cbn [bind]. rewrite for_each_write_B; [reflexivity |].
    intros k Hk. apply elem_of_elements, classify_category_B in Hk.
    destruct Hk as (id & _ & Hid & ->).
    apply in_report_range_eligible, Hid.
  - intros [k c] Hk. apply elem_of_map_to_list, classify_category_A in Hk.
    destruct Hk as (id & _ & Hid & -> & _).
    apply in_report_range_eligible, Hid.
Qed.

Lemma elem_of_unique_ids (id : Z) :
  id ∈ elements (list_to_set id_values : gset Z) <-> id ∈ id_values.
Proof. rewrite elem_of_elements, elem_of_list_to_set. reflexivity. Qed.


(** The keys of the two report files and of the two categories. *)
Lemma plot_data_files :
  exists r,
    plot_data time_values id_values pgn_values p = Ok r
    /\ final r = classify' (elements (list_to_set id_values : gset Z))
    /\ (forall k c, (k, c) ∈ category_A_txt r <-> category_A (final r) !! k = Some c)
    /\ (forall k, k ∈ map fst (category_A_txt r) <-> is_Some (category_A (final r) !! k))
    /\ (forall k, k ∈ category_B_txt r <-> k ∈ category_B (final r))
    /\ NoDup (map fst (category_A_txt r)) /\ NoDup (category_B_txt r).
Proof.
  eexists. split; [apply plot_data_Ok |]. cbn [final category_A_txt category_B_txt].
  split; [reflexivity |]. split; [| split; [| split; [| split]]].
  - intros k c. apply elem_of_map_to_list.
  - intros k. rewrite list_elem_of_fmap. split.
    + intros ([k' c] & -> & H). apply elem_of_map_to_list in H. exists c. exact H.
    + intros [c H]. exists (k, c). split; [reflexivity |].
      apply elem_of_map_to_list, H.
  - intros k. apply elem_of_elements.
  - replace (map fst (map_to_list (category_A (classify' (elements (list_to_set id_values))))))
      with ((map_to_list (category_A (classify' (elements (list_to_set id_values : gset Z))))).*1).
    + apply NoDup_fst_map_to_list.
    + generalize (map_to_list (category_A (classify' (elements (list_to_set id_values : gset Z))))).
      intros l. induction l as [| a l IH]; cbn; [reflexivity | rewrite IH; reflexivity].
  - apply NoDup_elements.
Qed.

Lemma flagged_or_cleared (id : Z) :
  eligible pgn_values id ->
  (2 <= length (filtered_time_values time_values id_values id))%nat ->
  flagged_by' id \/ cleared_by' id.
Proof.
  intros He Hlen. unfold flagged_by, cleared_by. cbv zeta.
  assert (Hc : (0 < length (cts id))%nat)
    by (rewrite cycle_times_differences, differences_length; lia).
  destruct (Nat.eq_dec (count id) 0%nat) as [Hz | Hnz]; [right | left]; repeat split;
    try apply He; try exact Hc; lia.
Qed.

Lemma recorded_occurrences (id : Z) :
  flagged_by' id \/ cleared_by' id ->
  (2 <= length (filtered_time_values time_values id_values id))%nat.
Proof.
  intros [(_ & Hc & _) | (_ & Hc & _)]; cbv zeta in Hc;
    rewrite cycle_times_differences, differences_length in Hc; lia.
Qed.

(** The outcome recorded under a key, in terms of the identifier that
    produced it. *)
Lemma outcome_classify (order : list Z) (k : string) (o : ClassificationOutcome) :
  outcome (classify' order) k = Some o
  <-> exists id, id ∈ order /\ k = hex (get_can_id id)
                 /\ ((flagged_by' id /\ o = Flagged (count id))
                     \/ (cleared_by' id /\ o = Clean)).
Proof.
  unfold outcome.
  destruct (category_A (classify' order) !! k) as [c |] eqn:HA.
  - pose proof (proj1 (classify_category_A order k c) HA) as (id & Hin & Hid & -> & ->).
    split.
    + intros [= <-]. exists id. split; [exact Hin |]. split; [reflexivity |].
      left. split; [exact Hid | reflexivity].
    + intros (id' & _ & Hk & [[Hid' ->] | [Hid' ->]]).
      * assert (id = id') as -> by
          (apply eligible_key_inj; [apply Hid | apply Hid' | exact Hk]).
        reflexivity.
      * exfalso. exact (flagged_cleared_exclusive id id' Hid Hid' Hk).
  - case_decide as HB.
    + apply classify_category_B in HB as (id & Hin & Hid & ->). split.
      * intros [= <-]. exists id. split; [exact Hin |]. split; [reflexivity |].
        right. split; [exact Hid | reflexivity].
      * intros (id' & Hin' & Hk & [[Hid' ->] | [Hid' ->]]); [| reflexivity].
        exfalso. symmetry in Hk. exact (flagged_cleared_exclusive id' id Hid' Hid Hk).
    + split; [discriminate |].
      intros (id & Hin & -> & [[Hid ->] | [Hid ->]]); exfalso.
      * assert (H : category_A (classify' order) !! hex (get_can_id id) = Some (count id))
          by (apply classify_category_A; exists id; auto).
        congruence.
      * apply HB, classify_category_B. exists id. auto.
Qed.

Lemma outcome_None (st : state) (k : string) :
  outcome st k = None <-> category_A st !! k = None /\ k ∉ category_B st.
Proof.
  unfold outcome. destruct (category_A st !! k) as [c |].
  - split; [discriminate | intros [H _]; discriminate].
  - case_decide as HB; split.
    + discriminate.
    + intros [_ H]. contradiction.
    + intros _. split; [reflexivity | exact HB].
    + reflexivity.
Qed.


(** On eligible identifiers the loop does not look at the reference set
    again. *)
Lemma classify_eligible_only (order : list Z) :
  Forall (eligible pgn_values) order ->
  classify' order = classify time_values id_values ∅ p order.
Proof.
  induction order as [| x order IH] using rev_ind; [reflexivity |].
  intros H. apply Forall_app in H as [Horder Hx]. apply Forall_cons_1 in Hx as [Hx _].
  unfold classify in IH |- *. rewrite !fold_left_app. cbn [fold_left].
  rewrite IH by exact Horder.
  rewrite (body_eligible _ x Hx). unfold body.
  destruct Hx as [Hr _]. apply range_guard in Hr. rewrite Hr.
  destruct (decide (get_can_id x ∈ (∅ : gset Z))) as [Hin | _];
    [exfalso; revert Hin; apply not_elem_of_empty | reflexivity].
Qed.

End ClassifyFacts.

(** ** Facts about the row selection *)

Section XmlFacts.
Import Xml.

Lemma element_ind' (P : element -> Prop) :
  (forall t x cs, Forall P cs -> P (Element t x cs)) -> forall e, P e.
Proof.
  intros H. fix IH 1. intros [t x cs]. apply H.
  induction cs as [| c cs IHcs]; constructor; [apply IH | exact IHcs].
Qed.

Lemma child_rows_cons (descend : element -> list element) (pred : Z -> bool)
    (c : element) (cs : list element) (position : Z) :
  child_rows descend pred (c :: cs) position
  = if is_row c
    then (if pred (position + 1) then [c] else [])
           ++ descend c ++ child_rows descend pred cs (position + 1)
    else descend c ++ child_rows descend pred cs position.
Proof. reflexivity. Qed.

Lemma descendant_rows_unfold (pred : Z -> bool) (t : string) (x : option string)
    (cs : list element) :
  descendant_rows pred (Element t x cs) = child_rows (descendant_rows pred) pred cs 0.
Proof. reflexivity. Qed.

(** Where there is no row at all, no predicate selects one. *)
Lemma descendant_rows_nil (pred : Z -> bool) (e : element) :
  descendant_rows (fun _ => true) e = [] -> descendant_rows pred e = [].
Proof.
  induction e as [t x cs IH] using element_ind'.
  rewrite !descendant_rows_unfold. generalize 0 at 1. generalize 0.
  induction IH as [| c cs Hc _ IHcs]; intros pos pos' Hnil; [reflexivity |].
  rewrite child_rows_cons in Hnil |- *.
  destruct (is_row c); [discriminate |].
  apply app_eq_nil in Hnil as [Hc' Hcs'].
  rewrite (Hc Hc'), (IHcs _ _ Hcs'). reflexivity.
Qed.

Lemma rowless_spec (e : element) :
  rowless e <-> is_row e = false /\ descendant_rows (fun _ => true) e = [].
Proof.
  unfold rowless, xpath_rows. destruct (is_row e); cbn.
  - split; [discriminate | intros [H _]; discriminate].
  - split; [intros H; split; [reflexivity | exact H] | intros [_ H]; exact H].
Qed.

Lemma child_rows_rowless_app (pred : Z -> bool) (before l : list element) (position : Z) :
  Forall rowless before ->
  child_rows (descendant_rows pred) pred (before ++ l) position
  = child_rows (descendant_rows pred) pred l position.
Proof.
  induction 1 as [| c before Hc _ IH]; [reflexivity |].
  apply rowless_spec in Hc as [Hrow Hnil].
  cbn [app]. rewrite child_rows_cons, Hrow, (descendant_rows_nil pred c Hnil).
  exact IH.
Qed.

Lemma child_rows_rowless (pred : Z -> bool) (l : list element) (position : Z) :
  Forall rowless l -> child_rows (descendant_rows pred) pred l position = [].
Proof.
  intros H. rewrite <- (app_nil_r l), child_rows_rowless_app by exact H.
  reflexivity.
Qed.

(** The rows selected among the children of a table whose rows hold no
    rows: the rows from position 26 on, up to position [25 + num_rows]. *)
Lemma child_rows_table (num_rows : Z) (kids : list element) :
  Forall (fun k => descendant_rows (fun _ => true) k = []) kids ->
  forall position, 0 <= position ->
    child_rows (descendant_rows (Loader.row_window num_rows)) (Loader.row_window num_rows)
               kids position
    = firstn (Z.to_nat (25 + num_rows - Z.max position 25))
             (skipn (Z.to_nat (25 - position)) (List.filter is_row kids)).
Proof.
  induction 1 as [| c kids Hc _ IH]; intros position Hpos.
  - cbn. rewrite skipn_nil, firstn_nil. reflexivity.
  - rewrite child_rows_cons, (descendant_rows_nil _ c Hc). cbn [List.filter app].
    destruct (is_row c); [| apply IH, Hpos].
    rewrite IH by lia. unfold Loader.row_window.
    destruct (Z.ltb_spec 25 (position + 1)) as [Hlo | Hlo]; cbn [andb].
    + replace (Z.to_nat (25 - position)) with 0%nat by lia.
      replace (Z.to_nat (25 - (position + 1))) with 0%nat by lia.
      cbn [skipn].
      destruct (Z.leb_spec (position + 1) (25 + num_rows)) as [Hhi | Hhi].
      * replace (Z.to_nat (25 + num_rows - Z.max position 25))
          with (S (Z.to_nat (25 + num_rows - Z.max (position + 1) 25))) by lia.
        reflexivity.
      * replace (Z.to_nat (25 + num_rows - Z.max position 25)) with 0%nat by lia.
        replace (Z.to_nat (25 + num_rows - Z.max (position + 1) 25)) with 0%nat by lia.
        reflexivity.
    + replace (Z.to_nat (25 - position)) with (S (Z.to_nat (25 - (position + 1)))) by lia.
      replace (Z.max (position + 1) 25) with (Z.max position 25) by lia.
      reflexivity.
Qed.

Lemma single_table_not_row (kids : list element) (e : element) :
  single_table kids e -> is_row e = false.
Proof. destruct 1; assumption. Qed.

Lemma descendant_rows_single_table (num_rows : Z) (kids : list element) (root : element) :
  single_table kids root ->
  descendant_rows (Loader.row_window num_rows) root = window num_rows (List.filter is_row kids).
Proof.
  induction 1 as [t x _ Hkids | t x before c after _ Hb Ha Hc IH].
  - rewrite descendant_rows_unfold, child_rows_table by (assumption || lia).
    unfold window. replace (25 + num_rows - Z.max 0 25) with num_rows by lia.
    reflexivity.
  - rewrite descendant_rows_unfold, child_rows_rowless_app by exact Hb.
    rewrite child_rows_cons, (single_table_not_row kids c Hc), IH,
      child_rows_rowless by exact Ha.
    apply app_nil_r.
Qed.

(** All the rows of a table whose rows hold no rows. *)
Lemma child_rows_all (kids : list element) :
  Forall (fun k => descendant_rows (fun _ => true) k = []) kids ->
  forall position,
    child_rows (descendant_rows (fun _ => true)) (fun _ => true) kids position
    = List.filter is_row kids.
Proof.
  induction 1 as [| c kids Hc _ IH]; intros position; [reflexivity |].
  rewrite child_rows_cons, Hc, !IH. cbn [List.filter app].
  destruct (is_row c); reflexivity.
Qed.

Lemma xpath_rows_all_single_table (kids : list element) (root : element) :
  single_table kids root ->
  xpath_rows (fun _ => true) root = List.filter is_row kids.
Proof.
  intros H. unfold xpath_rows. rewrite (single_table_not_row kids root H). cbn [andb app].
  induction H as [t x _ Hkids | t x before c after _ Hb Ha Hc IH].
  - rewrite descendant_rows_unfold. apply child_rows_all, Hkids.
  - rewrite descendant_rows_unfold, child_rows_rowless_app by exact Hb.
    rewrite child_rows_cons, (single_table_not_row kids c Hc), IH,
      child_rows_rowless by exact Ha.
    apply app_nil_r.
Qed.

Lemma xpath_rows_single_table (num_rows : Z) (kids : list element) (root : element) :
  single_table kids root ->
  xpath_rows (Loader.row_window num_rows) root = window num_rows (List.filter is_row kids).
Proof.
  intros H. unfold xpath_rows.
  rewrite (descendant_rows_single_table num_rows kids root H).
  rewrite andb_false_r. reflexivity.
Qed.


(** A row is selected by its position among the rows of its own parent. *)
Lemma in_child_rows (pred : Z -> bool) (cs : list element) (r : element) :
  forall position,
    In r (child_rows (descendant_rows pred) pred cs position)
    <-> (exists i, nth_error (List.filter is_row cs) i = Some r
                   /\ pred (position + Z.of_nat i + 1) = true)
        \/ (exists c, In c cs /\ In r (descendant_rows pred c)).
Proof.
  induction cs as [| c cs IH]; intros position.
  - cbn. split; [tauto |].
    intros [(i & Hi & _) | (c & [] & _)]. destruct i; discriminate.
  - rewrite child_rows_cons. cbn [List.filter].
    destruct (is_row c) eqn:Hrow.
    + rewrite !in_app_iff, IH. split.
      * intros [Hsel | [Hc | [(i & Hi & Hp) | (c' & Hc' & Hr)]]].
        -- destruct (pred (position + 1)) eqn:Hp; [| destruct Hsel].
           destruct Hsel as [<- | []]. left. exists 0%nat.
           split; [reflexivity |]. rewrite <- Hp. f_equal. lia.
        -- right. exists c. split; [left; reflexivity | exact Hc].
        -- left. exists (S i). split; [exact Hi |]. rewrite <- Hp. f_equal. lia.
        -- right. exists c'. split; [right; exact Hc' | exact Hr].
      * intros [(i & Hi & Hp) | (c' & [<- | Hc'] & Hr)].
        -- destruct i as [| i].
           ++ left. injection Hi as <-.
              replace (position + Z.of_nat 0 + 1) with (position + 1) in Hp by lia.
              rewrite Hp. left. reflexivity.
           ++ right. right. left. exists i. split; [exact Hi |].
              rewrite <- Hp. f_equal. lia.
        -- right. left. exact Hr.
        -- right. right. right. exists c'. split; assumption.
    + rewrite in_app_iff, IH. split.
      * intros [Hc | [(i & Hi & Hp) | (c' & Hc' & Hr)]].
        -- right. exists c. split; [left; reflexivity | exact Hc].
        -- left. exists i. split; assumption.
        -- right. exists c'. split; [right; exact Hc' | exact Hr].
      * intros [(i & Hi & Hp) | (c' & [<- | Hc'] & Hr)].
        -- right. left. exists i. split; assumption.
        -- left. exact Hr.
        -- right. right. exists c'. split; assumption.
Qed.

Lemma in_descendant_rows (pred : Z -> bool) (root r : element) :
  In r (descendant_rows pred root)
  <-> exists parent i,
        In parent (self_and_descendants root)
        /\ nth_error (List.filter is_row (children parent)) i = Some r
        /\ pred (Z.of_nat i + 1) = true.
Proof.
  induction root as [t x cs IH] using element_ind'.
  rewrite descendant_rows_unfold, in_child_rows.
  rewrite Forall_forall in IH. split.
  - intros [(i & Hi & Hp) | (c & Hc & Hr)].
    + exists (Element t x cs), i. split; [left; reflexivity |].
      split; [exact Hi | exact Hp].
    + apply (IH c) in Hr; [| apply list_elem_of_In, Hc].
      destruct Hr as (parent & i & Hparent & H).
      exists parent, i. split; [| exact H].
      right. apply in_flat_map. exists c. split; assumption.
  - intros (parent & i & Hparent & Hi & Hp).
    destruct Hparent as [<- | Hparent].
    + left. exists i. split; [exact Hi | exact Hp].
    + apply in_flat_map in Hparent as (c & Hc & Hparent).
      right. exists c. split; [exact Hc |].
      apply IH; [apply list_elem_of_In, Hc |].
      exists parent, i. split; [exact Hparent |]. split; assumption.
Qed.

(** In any document the selected rows are rows 26 to [25 + num_rows] of
    each parent, counted among the rows of that parent. *)
Lemma in_xpath_rows_window (num_rows : Z) (root r : element) :
  In r (xpath_rows (Loader.row_window num_rows) root)
  <-> exists parent i,
        In parent (self_and_descendants root)
        /\ nth_error (List.filter is_row (children parent)) i = Some r
        /\ 25 <= Z.of_nat i < 25 + num_rows.
Proof.
  unfold xpath_rows. rewrite andb_false_r. cbn [app].
  rewrite in_descendant_rows.
  assert (Hw : forall i : nat,
             Loader.row_window num_rows (Z.of_nat i + 1) = true
             <-> 25 <= Z.of_nat i < 25 + num_rows).
  { intros i. unfold Loader.row_window.
    rewrite andb_true_iff, Z.ltb_lt, Z.leb_le. lia. }
  split; intros (parent & i & Hparent & Hi & Hp); exists parent, i;
    (split; [exact Hparent |]); (split; [exact Hi |]); apply Hw, Hp.
Qed.


(** The selected rows come in document order: they are a sublist of all
    the rows of the document. *)
Lemma child_rows_sublist (pred : Z -> bool) (cs : list element) :
  Forall (fun c => descendant_rows pred c `sublist_of` descendant_rows (fun _ => true) c) cs ->
  forall position position',
    child_rows (descendant_rows pred) pred cs position
    `sublist_of` child_rows (descendant_rows (fun _ => true)) (fun _ => true) cs position'.
Proof.
  induction 1 as [| c cs Hc _ IH]; intros position position'; [constructor |].
  rewrite !child_rows_cons. destruct (is_row c).
  - apply sublist_app; [| apply sublist_app; [exact Hc | apply IH]].
    destruct (pred (position + 1)); [reflexivity | apply sublist_nil_l].
  - apply sublist_app; [exact Hc | apply IH].
Qed.

Lemma descendant_rows_sublist (pred : Z -> bool) (e : element) :
  descendant_rows pred e `sublist_of` descendant_rows (fun _ => true) e.
Proof.
  induction e as [t x cs IH] using element_ind'.
  rewrite !descendant_rows_unfold. apply child_rows_sublist, IH.
Qed.

Lemma xpath_rows_sublist (pred : Z -> bool) (root : element) :
  xpath_rows pred root `sublist_of` xpath_rows (fun _ => true) root.
Proof.
  unfold xpath_rows. apply sublist_app; [| apply descendant_rows_sublist].
  destruct (is_row root); cbn; [| constructor].
  destruct (pred 1); [reflexivity | apply sublist_nil_l].
Qed.

Lemma xpath_rows_window_nil (num_rows : Z) (root : element) :
  num_rows <= 0 -> xpath_rows (Loader.row_window num_rows) root = [].
Proof.
  intros Hn.
  destruct (xpath_rows (Loader.row_window num_rows) root) as [| r l] eqn:Hl;
    [reflexivity |].
  assert (Hin : In r (xpath_rows (Loader.row_window num_rows) root))
    by (rewrite Hl; left; reflexivity).
  apply in_xpath_rows_window in Hin as (parent & i & _ & _ & Hi). lia.
Qed.

End XmlFacts.

(** ** Facts about the capture loader *)

Section LoaderFacts.
Import Py Xml Loader.

Variable float_of_string : string -> option float.

Local Abbreviation ods_row' := (ods_row float_of_string).
Local Abbreviation row_record' := (row_record float_of_string).
Local Abbreviation parse_record' := (parse_record float_of_string).

Lemma collect_Ok {A : Type} (l : list (result A)) (values : list A) :
  collect l = Ok values <-> l = map Ok values.
Proof.
  revert values. induction l as [| r l IH]; intros values.
  - cbn. split.
    + intros [= <-]. reflexivity.
    + destruct values; [reflexivity | discriminate].
  - cbn [collect]. destruct r as [a | e]; cbn [bind].
    + destruct (collect l) as [l'' | e'] eqn:Hl; cbn [bind].
      * pose proof (proj1 (IH l'') eq_refl) as ->. split.
        -- intros [= <-]. reflexivity.
        -- destruct values as [| v values]; [discriminate |]. cbn.
           intros [= -> Hmap]. f_equal. f_equal.
           clear -Hmap. revert values Hmap.
           induction l'' as [| y l'' IHl]; intros [| v values] Hm;
             try discriminate; [reflexivity |].
           injection Hm as -> Hm. f_equal. apply IHl, Hm.
      * split; [discriminate |].
        destruct values as [| v values]; [discriminate |]. cbn.
        intros [= _ Hmap]. apply IH in Hmap. discriminate.
    + split; [discriminate |]. destruct values; discriminate.
Qed.

Lemma collect_Raise {A : Type} (l : list (result A)) (e : error) :
  collect l = Raise e -> In (Raise e) l.
Proof.
  induction l as [| r l IH]; [discriminate |].
  cbn [collect]. destruct r as [a | e']; cbn [bind].
  - destruct (collect l) as [l'' | e''] eqn:Hl; cbn [bind]; [discriminate |].
    intros [= ->]. right. apply IH. reflexivity.
  - intros [= ->]. left. reflexivity.
Qed.

Lemma collect_In_Raise {A : Type} (l : list (result A)) (e : error) :
  In (Raise e) l -> exists e', collect l = Raise e'.
Proof.
  induction l as [| r l IH]; [intros [] |].
  intros [-> | Hin]; [exists e; reflexivity |].
  cbn [collect]. destruct r as [a | e']; cbn [bind]; [| exists e'; reflexivity].
  destruct (IH Hin) as (e'' & ->). exists e''. reflexivity.
Qed.

Lemma ods_row_row_record (acc : list float * list Z) (row : element) :
  ods_row' acc row
  = match row_record' row with
    | None => Ok acc
    | Some r => let* r := r in Ok (fst acc ++ [fst r], snd acc ++ [snd r])
    end.
Proof. unfold ods_row, row_record. destruct (xpath_cells row); reflexivity. Qed.

(** The loop of [parse_ods_file] appends, to both lists, the records of
    the rows that have a cell, or raises the first exception among them. *)
Lemma for_each_ods_row (rows : list element) (acc : list float * list Z) :
  for_each ods_row' rows acc
  = let* records := collect (omap row_record' rows) in
    Ok (fst acc ++ map fst records, snd acc ++ map snd records).
Proof.
  revert acc. induction rows as [| row rows IH]; intros [ts ids].
  - cbn. rewrite !app_nil_r. reflexivity.
  - cbn [for_each omap list_omap]. rewrite ods_row_row_record.
    destruct (row_record' row) as [[r | e] |]; cbn [bind collect].
    + rewrite IH. cbn [fst snd].
      destruct (collect (omap row_record' rows)) as [records | e]; cbn [bind map];
        [| reflexivity].
      rewrite <- !app_assoc. reflexivity.
    + reflexivity.
    + apply IH.
Qed.

Lemma parse_ods_file_load_rows (root : element) (num_rows : Z) :
  parse_ods_file float_of_string root num_rows
  = load_rows float_of_string (xpath_rows (row_window num_rows) root).
Proof. unfold parse_ods_file, load_rows. rewrite for_each_ods_row. reflexivity. Qed.

(** [parse_record] succeeds exactly on the expected layout. *)
Lemma parse_record_Ok (value : option string) (time_ms : float) (id_hex : Z) :
  parse_record' value = Ok (time_ms, id_hex)
  <-> exists s field1 field5,
        value = Some s
        /\ nth_error (split ";" s) 1 = Some field1
        /\ nth_error (split ";" s) 5 = Some field5
        /\ float_of_string field1 = Some time_ms
        /\ int16 field5 = Some id_hex.
Proof.
  unfold parse_record, index. split.
  - destruct value as [s |]; cbn [of_option bind]; [| discriminate].
    destruct (nth_error (split ";" s) 1) as [field1 |] eqn:H1; cbn [of_option bind];
      [| discriminate].
    destruct (float_of_string field1) as [t |] eqn:Ht; cbn [of_option bind];
      [| discriminate].
    destruct (nth_error (split ";" s) 5) as [field5 |] eqn:H5; cbn [of_option bind];
      [| discriminate].
    destruct (int16 field5) as [i |] eqn:Hi; cbn [of_option bind]; [| discriminate].
    intros [= <- <-]. exists s, field1, field5. repeat split; assumption.
  - intros (s & field1 & field5 & -> & H1 & H5 & Ht & Hi).
    cbn [of_option bind]. rewrite H1. cbn [of_option bind]. rewrite Ht.
    cbn [of_option bind]. rewrite H5. cbn [of_option bind]. rewrite Hi.
    reflexivity.
Qed.

Lemma parse_record_malformed (value : option string) :
  malformed float_of_string value <-> exists e, parse_record' value = Raise e.
Proof.
  unfold malformed, parse_record, index.
  destruct value as [s |]; cbn [of_option bind];
    [| split; [exists AttributeError; reflexivity | trivial]].
  set (fields := split ";" s).
  destruct (nth_error fields 1) as [field1 |] eqn:H1; cbn [of_option bind].
  - destruct (float_of_string field1) as [t |] eqn:Ht; cbn [of_option bind].
    + destruct (nth_error fields 5) as [field5 |] eqn:H5; cbn [of_option bind].
      * destruct (int16 field5) as [i |] eqn:Hi; cbn [of_option bind].
        -- split.
           ++ intros [Hlen | [(f & Hf & Hn) | (f & Hf & Hn)]].
              ** exfalso. assert (H : nth_error fields 5 <> None) by congruence.
                 apply nth_error_Some in H. lia.
              ** congruence.
              ** congruence.
           ++ intros (e & He). discriminate.
        -- split; [exists ValueError; reflexivity |].
           intros _. right. right. exists field5. auto.
      * split; [exists IndexError; reflexivity |].
        intros _. left. apply nth_error_None in H5. lia.
    + split; [exists ValueError; reflexivity |].
      intros _. right. left. exists field1. auto.
  - split; [exists IndexError; reflexivity |].
    intros _. left. apply nth_error_None in H1. lia.
Qed.

End LoaderFacts.

(** * The claims of the specification *)

Section Claims.
Import Decoder Py Xml Loader Classifier.

(** C3 (the code departs from the claim): the four branches of [get_pgn]
    do compute one and the same value for every raw identifier, but that
    value is not bits 8-23 of the identifier as [extract_pgn] computes
    them: [get_pgn] puts bits 8-15 above bits 16-23, so the two bytes come
    out swapped.  At [0x100], [get_pgn] gives [0x100] and [extract_pgn]
    gives [1]. *)
Theorem get_pgn_swaps_the_bytes_of_extract_pgn :
  (forall msg_id pdu_specific : Z,
      pgn_pdu1 msg_id pdu_specific = pgn_pdu2 msg_id pdu_specific
      /\ pgn_pdu2 msg_id pdu_specific = pgn_pdu1_group msg_id pdu_specific
      /\ pgn_pdu1_group msg_id pdu_specific = pgn_pdu2_group msg_id pdu_specific)
  /\ (forall id : Z,
         get_pgn id
         = Z.lor (Z.shiftl (Z.land (Z.shiftr id 8) 0xFF) 8) (Z.land (Z.shiftr id 16) 0xFF))
  /\ get_pgn 0x100 = 0x100
  /\ extract_pgn 0x100 = 0x1.
Proof.
  split; [intros; repeat split |].
  split; [exact get_pgn_uniform |].
  split; reflexivity.
Qed.

(** C9: for every identifier [id] with [0 <= id < 0x800] masking is the
    identity, [get_can_id id = id]; every key of the outcome map is the
    [hex] of an eligible raw identifier of the capture; and two distinct
    eligible identifiers never have the same masked key. *)
Theorem eligible_keys_are_raw_identifiers :
  (forall id : Z, 0 <= id < 0x800 -> get_can_id id = id)
  /\ (forall (time_values : list float) (id_values : list Z) (pgn_values : gset Z)
             (p : float) (k : string),
         exists r,
           plot_data time_values id_values pgn_values p = Ok r
           /\ (is_Some (outcome (final r) k) ->
               exists id, id ∈ id_values /\ eligible pgn_values id /\ k = hex id))
  /\ (forall (pgn_values : gset Z) (id1 id2 : Z),
         eligible pgn_values id1 -> eligible pgn_values id2 -> id1 <> id2 ->
         hex (get_can_id id1) <> hex (get_can_id id2)).
Proof.
  split; [| split].
  - intros id H. apply get_can_id_small. lia.
  - intros tv ids pgn p k.
    destruct (plot_data_files tv ids pgn p) as (r & Hr & Hfinal & _).
    exists r. split; [exact Hr |]. rewrite Hfinal. intros [o Ho].
    apply outcome_classify in Ho as (id & Hin & -> & Hid).
    apply (proj1 (elem_of_unique_ids ids id)) in Hin.
    assert (He : eligible pgn id) by (destruct Hid as [[H _] | [H _]]; apply H).
    exists id. split; [exact Hin |]. split; [exact He |].
    rewrite (eligible_can_id pgn id He). reflexivity.
  - intros pgn id1 id2 H1 H2 Hne Hk. apply Hne.
    exact (eligible_key_inj pgn id1 id2 H1 H2 Hk).
Qed.

Lemma eligible_keys_are_raw_identifiers_witness :
  get_can_id 0x123 = 0x123
  /\ hex (get_can_id 0x123) <> hex (get_can_id 0x124).
Proof.
  split.
  - apply (proj1 eligible_keys_are_raw_identifiers). lia.
  - apply (proj2 (proj2 eligible_keys_are_raw_identifiers) ∅).
    + split; [lia | apply not_elem_of_empty].
    + split; [lia | apply not_elem_of_empty].
    + lia.
Defined.

(** C1: for every eligible identifier with at least two occurrences, the
    outcome recorded under [hex (get_can_id id)] is the one the
    specification describes: with [threshold = median(cycle_times) * (1 +
    p/100)] and [count] the number of cycle times strictly greater than the
    threshold, [Flagged count] (written to [category_A.txt]) when [count]
    is positive and [Clean] (written to [category_B.txt]) otherwise; the
    median of an even number of values is the mean of the two middle
    values of the sorted data; [p] is 5 unless given. *)
Theorem classification_follows_specification :
  (forall (time_values : list float) (id_values : list Z) (pgn_values : gset Z)
          (p : float) (id : Z),
      id ∈ id_values -> eligible pgn_values id ->
      (2 <= length (filtered_time_values time_values id_values id))%nat ->
      exists r,
        plot_data time_values id_values pgn_values p = Ok r
        /\ outcome (final r) (hex (get_can_id id)) = classification time_values id_values p id
        /\ (let cts := differences (filtered_time_values time_values id_values id) in
            let limit :=
              PrimFloat.mul (np_median cts)
                (PrimFloat.add 1%float (PrimFloat.div p 100%float)) in
            let count := exceedances limit cts in
            classification time_values id_values p id
            = Some (if (0 <? count)%nat then Flagged count else Clean)
            /\ ((0 < count)%nat -> (hex (get_can_id id), count) ∈ category_A_txt r)
            /\ (count = 0%nat -> hex (get_can_id id) ∈ category_B_txt r)))
  /\ (forall (l : list float) (k : nat),
         existsb PrimFloat.is_nan l = false -> length l = (2 * k)%nat -> (0 < k)%nat ->
         np_median l
         = PrimFloat.div
             (PrimFloat.add (nth (k - 1)%nat (sort l) 0%float) (nth k (sort l) 0%float))
             2%float
         /\ Permutation (sort l) l /\ ascending (sort l))
  /\ default_threshold_percentage = 5%float.
Proof.
  split; [| split; [| reflexivity]].
  - intros tv ids pgn p id Hin He Hlen.
    destruct (plot_data_files tv ids pgn p) as (r & Hr & Hfinal & HA & _ & HB & _).
    exists r. split; [exact Hr |].
    set (f := filtered_time_values tv ids id) in *.
    assert (Hcls : classification tv ids p id
                   = Some (if (0 <? exceeded_count (threshold p (np_median (cycle_times f)))
                                      (cycle_times f))%nat
                           then Flagged (exceeded_count (threshold p (np_median (cycle_times f)))
                                           (cycle_times f))
                           else Clean)).
    { unfold classification. fold f.
      rewrite exceeded_count_exceedances, cycle_times_differences. unfold threshold.
      pose proof (differences_length f) as Hd.
      destruct (differences f) as [| c cts]; [cbn in Hd; lia | reflexivity]. }
    assert (Hout : outcome (final r) (hex (get_can_id id)) = classification tv ids p id).
    { rewrite Hfinal, Hcls. apply outcome_classify. exists id.
      split; [apply elem_of_unique_ids, Hin |]. split; [reflexivity |].
      destruct (flagged_or_cleared tv ids pgn p id He Hlen) as [Hf | Hc].
      - left. split; [exact Hf |]. destruct Hf as (_ & _ & Hpos). cbv zeta in Hpos.
        fold f in Hpos. apply Nat.ltb_lt in Hpos. rewrite Hpos. reflexivity.
      - right. split; [exact Hc |]. destruct Hc as (_ & _ & Hz). cbv zeta in Hz.
        fold f in Hz. rewrite Hz. reflexivity. }
    split; [exact Hout |]. cbv zeta.
    rewrite Hcls in Hout. rewrite Hcls. clear Hcls.
    rewrite exceeded_count_exceedances, cycle_times_differences in Hout |- *.
    unfold threshold in Hout |- *.
    split; [reflexivity |]. unfold outcome in Hout. split.
    + intros Hpos. apply HA. apply Nat.ltb_lt in Hpos. rewrite Hpos in Hout.
      destruct (category_A (final r) !! hex (get_can_id id)) as [c |];
        [congruence |]. case_decide; discriminate.
    + intros Hz. apply HB. rewrite Hz in Hout. cbn in Hout.
      destruct (category_A (final r) !! hex (get_can_id id)) as [c |];
        [discriminate |]. case_decide; [assumption | discriminate].
  - intros l k Hnan Hlen Hk. split; [apply np_median_even; assumption |].
    split; [apply sort_perm | apply sort_ascending, no_nan_Forall, Hnan].
Qed.


Lemma classification_follows_specification_witness :
  let time_values := [0; 100; 260; 300]%float in
  let id_values := [0x123; 0x123; 0x123; 0x123] in
  (0x123 ∈ id_values /\ eligible ∅ 0x123
   /\ (2 <= length (filtered_time_values time_values id_values 0x123%Z))%nat)
  /\ (exists r,
         plot_data time_values id_values ∅ default_threshold_percentage = Ok r
         /\ outcome (final r) (hex (get_can_id 0x123)) = Some (Flagged 1))
  /\ np_median [100; 160; 40; 7]%float = 70%float.
Proof.
  cbv zeta.
  assert (H1 : 0x123 ∈ [0x123; 0x123; 0x123; 0x123]) by apply list_elem_of_here.
  assert (H2 : eligible ∅ 0x123) by (split; [lia | apply not_elem_of_empty]).
  assert (H3 : (2 <= length (filtered_time_values [0; 100; 260; 300]%float
                               [0x123; 0x123; 0x123; 0x123]%Z 0x123%Z))%nat)
    by (vm_compute; lia).
  split; [split; [exact H1 | split; [exact H2 | exact H3]] |]. split.
  - destruct (proj1 classification_follows_specification _ _ _
                default_threshold_percentage _ H1 H2 H3)
      as (r & Hr & Hout & _).
    exists r. split; [exact Hr |]. rewrite Hout. vm_compute. reflexivity.
  - destruct (proj1 (proj2 classification_follows_specification)
                [100; 160; 40; 7]%float 2%nat) as (Hm & _);
      [reflexivity | reflexivity | lia |].
    rewrite Hm. vm_compute. reflexivity.
Defined.

(** C5: a capture holding only identifier [0x123], which is not in the
    reference set.  At timestamps [0, 100, 205, 300] the cycle times are
    [100, 105, 95], the median is 100 and the threshold at the default
    percentage is 105; no cycle time is strictly greater, the outcome is
    [Clean].  At timestamps [0, 100, 260, 300] the cycle times are [100,
    160, 40], the median 100, and the outcome is [Flagged 1]. *)
Theorem example_identifier_0x123 (pgn_values : gset Z) :
  0x123 ∉ pgn_values ->
  let id_values := [0x123; 0x123; 0x123; 0x123] in
  let p := default_threshold_percentage in
  (cycle_times [0; 100; 205; 300]%float = [100; 105; 95]%float
   /\ np_median [100; 105; 95]%float = 100%float
   /\ threshold p 100%float = 105%float
   /\ exists r,
        plot_data [0; 100; 205; 300]%float id_values pgn_values p = Ok r
        /\ outcome (final r) "0x123" = Some Clean
        /\ category_A_txt r = [] /\ category_B_txt r = ["0x123"%string])
  /\ (cycle_times [0; 100; 260; 300]%float = [100; 160; 40]%float
      /\ np_median [100; 160; 40]%float = 100%float
      /\ exists r,
           plot_data [0; 100; 260; 300]%float id_values pgn_values p = Ok r
           /\ outcome (final r) "0x123" = Some (Flagged 1)
           /\ category_A_txt r = [("0x123"%string, 1%nat)] /\ category_B_txt r = []).
Proof.
  intros Hpgn. cbv zeta.
  assert (Hids : elements (list_to_set [0x123; 0x123; 0x123; 0x123] : gset Z) = [0x123])
    by (vm_compute; reflexivity).
  assert (He : Forall (eligible pgn_values) [0x123]).
  { constructor; [| constructor]. split; [lia |]. exact Hpgn. }
  split.
  - split; [vm_compute; reflexivity |]. split; [vm_compute; reflexivity |].
    split; [vm_compute; reflexivity |].
    eexists. split; [apply plot_data_Ok |].
    cbn [final category_A_txt category_B_txt].
    rewrite Hids, (classify_eligible_only _ _ _ _ _ He).
    repeat split; vm_compute; reflexivity.
  - split; [vm_compute; reflexivity |]. split; [vm_compute; reflexivity |].
    eexists. split; [apply plot_data_Ok |].
    cbn [final category_A_txt category_B_txt].
    rewrite Hids, (classify_eligible_only _ _ _ _ _ He).
    repeat split; vm_compute; reflexivity.
Qed.

Lemma example_identifier_0x123_witness :
  (0x123 ∉ ({[0x456]} : gset Z))
  /\ exists r,
       plot_data [0; 100; 205; 300]%float [0x123; 0x123; 0x123; 0x123] {[0x456]}
                 default_threshold_percentage = Ok r
       /\ outcome (final r) "0x123" = Some Clean.
Proof.
  assert (H : 0x123 ∉ ({[0x456]} : gset Z))
    by (intros Hin; apply elem_of_singleton in Hin; discriminate).
  split; [exact H |].
  destruct (example_identifier_0x123 {[0x456]} H) as [(_ & _ & _ & r & Hr & Hout & _) _].
  exists r. split; [exact Hr | exact Hout].
Defined.


(** C6: an eligible identifier that occurs fewer than two times has an
    empty cycle-time sequence and gets no outcome: its key is in neither
    category and in neither report file.  And in every run, each call of
    the median is on a sequence that is not empty. *)
Theorem short_series_has_no_outcome :
  (forall (time_values : list float) (id_values : list Z) (pgn_values : gset Z)
          (p : float) (id : Z),
      eligible pgn_values id ->
      (length (filtered_time_values time_values id_values id) < 2)%nat ->
      cycle_times (filtered_time_values time_values id_values id) = []
      /\ exists r,
           plot_data time_values id_values pgn_values p = Ok r
           /\ outcome (final r) (hex (get_can_id id)) = None
           /\ (hex (get_can_id id) ∉ map fst (category_A_txt r))
           /\ (hex (get_can_id id) ∉ category_B_txt r))
  /\ (forall (time_values : list float) (id_values : list Z) (pgn_values : gset Z)
             (p : float),
         exists r,
           plot_data time_values id_values pgn_values p = Ok r
           /\ Forall (fun a => a <> []) (median_calls (final r))).
Proof.
  split.
  - intros tv ids pgn p id He Hlen.
    assert (Hct : cycle_times (filtered_time_values tv ids id) = []).
    { apply length_zero_iff_nil.
      rewrite cycle_times_differences, differences_length. lia. }
    split; [exact Hct |].
    destruct (plot_data_files tv ids pgn p) as (r & Hr & Hfinal & _ & HA & HB & _).
    exists r. split; [exact Hr |].
    assert (Hnone : outcome (final r) (hex (get_can_id id)) = None).
    { destruct (outcome (final r) (hex (get_can_id id))) as [o |] eqn:Ho; [| reflexivity].
      exfalso. rewrite Hfinal in Ho.
      apply outcome_classify in Ho as (id' & _ & Hk & Hid').
      assert (He' : eligible pgn id') by (destruct Hid' as [[H _] | [H _]]; apply H).
      assert (id = id') as <- by (apply (eligible_key_inj pgn); assumption).
      assert (H2 : (2 <= length (filtered_time_values tv ids id))%nat).
      { apply (recorded_occurrences tv ids pgn p). tauto. }
      lia. }
    split; [exact Hnone |].
    apply outcome_None in Hnone as [HnA HnB]. split.
    + rewrite HA, HnA. intros [c Hc]. discriminate.
    + rewrite HB. exact HnB.
  - intros tv ids pgn p.
    destruct (plot_data_files tv ids pgn p) as (r & Hr & Hfinal & _).
    exists r. split; [exact Hr |]. rewrite Hfinal. apply classify_median_calls.
Qed.

Lemma short_series_has_no_outcome_witness :
  (eligible ∅ 0x123
   /\ (length (filtered_time_values [0; 100]%float [0x123; 0x124]%Z 0x123%Z) < 2)%nat)
  /\ cycle_times (filtered_time_values [0; 100]%float [0x123; 0x124] 0x123) = [].
Proof.
  assert (H1 : eligible ∅ 0x123) by (split; [lia | apply not_elem_of_empty]).
  assert (H2 : (length (filtered_time_values [0; 100]%float [0x123; 0x124]%Z 0x123%Z) < 2)%nat)
    by (vm_compute; lia).
  split; [split; [exact H1 | exact H2] |].
  exact (proj1 (proj1 short_series_has_no_outcome _ _ ∅ 5%float _ H1 H2)).
Defined.

(** C4: an identifier whose raw value is outside [[0, 0x800)] (such as
    [0x900]), or whose masked identifier is in the reference set, appears
    in neither category and in neither report file, whatever the capture;
    in the second case the same holds of its masked identifier. *)
Theorem excluded_identifier_has_no_outcome (time_values : list float)
    (id_values : list Z) (pgn_values : gset Z) (p : float) (id : Z) :
  ~ (0 <= id < 0x800) \/ get_can_id id ∈ pgn_values ->
  exists r,
    plot_data time_values id_values pgn_values p = Ok r
    /\ outcome (final r) (hex id) = None
    /\ (hex id ∉ map fst (category_A_txt r))
    /\ (hex id ∉ category_B_txt r)
    /\ (get_can_id id ∈ pgn_values ->
        outcome (final r) (hex (get_can_id id)) = None
        /\ (hex (get_can_id id) ∉ map fst (category_A_txt r))
        /\ (hex (get_can_id id) ∉ category_B_txt r)).
Proof.
  intros Hex.
  destruct (plot_data_files time_values id_values pgn_values p)
    as (r & Hr & Hfinal & _ & HA & HB & _).
  exists r. split; [exact Hr |].
  assert (Hfiles : forall k, outcome (final r) k = None ->
             outcome (final r) k = None
             /\ (k ∉ map fst (category_A_txt r)) /\ (k ∉ category_B_txt r)).
  { intros k Hnone. split; [exact Hnone |].
    apply outcome_None in Hnone as [HnA HnB]. split.
    - rewrite HA, HnA. intros [c Hc]. discriminate.
    - rewrite HB. exact HnB. }
  assert (Hkey : forall k, outcome (final r) k <> None ->
             exists id', eligible pgn_values id' /\ get_can_id id' = id' /\ k = hex id').
  { intros k Hk. destruct (outcome (final r) k) as [o |] eqn:Ho; [| contradiction].
    rewrite Hfinal in Ho. apply outcome_classify in Ho as (id' & _ & -> & Hid').
    assert (He' : eligible pgn_values id') by (destruct Hid' as [[H _] | [H _]]; apply H).
    exists id'. rewrite (eligible_can_id pgn_values id' He'). auto. }
  assert (Hraw : outcome (final r) (hex id) = None).
  { destruct (outcome (final r) (hex id)) as [o |] eqn:Ho; [| reflexivity].
    exfalso. destruct (Hkey (hex id)) as (id' & [Hr' Hp'] & Hcan & Heq); [congruence |].
    apply hex_inj in Heq. subst id'. destruct Hex as [Hout | Hin]; [tauto |].
    contradiction. }
  destruct (Hfiles _ Hraw) as (H1 & H2 & H3).
  split; [exact H1 |]. split; [exact H2 |]. split; [exact H3 |].
  intros Hin. apply Hfiles.
  destruct (outcome (final r) (hex (get_can_id id))) as [o |] eqn:Ho; [| reflexivity].
  exfalso. destruct (Hkey (hex (get_can_id id))) as (id' & [Hr' Hp'] & Hcan & Heq);
    [congruence |].
  apply hex_inj in Heq. subst id'. rewrite Hcan in Hp'. contradiction.
Qed.

Lemma excluded_identifier_has_no_outcome_witness :
  (~ (0 <= 0x900 < 0x800) \/ get_can_id 0x900 ∈ (∅ : gset Z))
  /\ exists r,
       plot_data [0; 100; 260; 300]%float [0x900; 0x900; 0x900; 0x900] ∅ 5%float = Ok r
       /\ outcome (final r) (hex 0x900) = None.
Proof.
  assert (H : ~ (0 <= 0x900 < 0x800) \/ get_can_id 0x900 ∈ (∅ : gset Z))
    by (left; lia).
  split; [exact H |].
  destruct (excluded_identifier_has_no_outcome
              [0; 100; 260; 300]%float [0x900; 0x900; 0x900; 0x900] ∅ 5%float 0x900 H)
    as (r & Hr & Hout & _).
  exists r. split; [exact Hr | exact Hout].
Defined.

(** C2, as amended: the identifiers written to [category_A.txt] and to
    [category_B.txt] are disjoint, each is written once, and together they
    are the eligible identifiers of the capture that occur at least two
    times. *)
Theorem reports_cover_recurring_eligible (time_values : list float)
    (id_values : list Z) (pgn_values : gset Z) (p : float) :
  exists r,
    plot_data time_values id_values pgn_values p = Ok r
    /\ (forall k, ~ (k ∈ map fst (category_A_txt r) /\ k ∈ category_B_txt r))
    /\ (forall k, k ∈ map fst (category_A_txt r) \/ k ∈ category_B_txt r
                  <-> exists id, id ∈ id_values /\ eligible pgn_values id
                                 /\ (2 <= length (filtered_time_values
                                                    time_values id_values id))%nat
                                 /\ k = hex (get_can_id id))
    /\ NoDup (map fst (category_A_txt r)) /\ NoDup (category_B_txt r).
Proof.
  destruct (plot_data_files time_values id_values pgn_values p)
    as (r & Hr & Hfinal & _ & HA & HB & HdA & HdB).
  exists r. split; [exact Hr |]. rewrite Hfinal in HA, HB.
  split; [| split; [| split; assumption]].
  - intros k [Hk1 Hk2]. apply HA in Hk1 as [c Hc]. apply HB in Hk2.
    apply classify_category_A in Hc as (id1 & _ & H1 & -> & _).
    apply classify_category_B in Hk2 as (id2 & _ & H2 & Hk).
    exact (flagged_cleared_exclusive _ _ _ _ id1 id2 H1 H2 Hk).
  - intros k. rewrite HA, HB. split.
    + intros [[c Hc] | Hk].
      * apply classify_category_A in Hc as (id & Hin & Hid & -> & _).
        exists id. split; [apply (proj1 (elem_of_unique_ids id_values id)), Hin |].
        split; [apply Hid |]. split; [| reflexivity].
        apply (recorded_occurrences time_values id_values pgn_values p). tauto.
      * apply classify_category_B in Hk as (id & Hin & Hid & ->).
        exists id. split; [apply (proj1 (elem_of_unique_ids id_values id)), Hin |].
        split; [apply Hid |]. split; [| reflexivity].
        apply (recorded_occurrences time_values id_values pgn_values p). tauto.
    + intros (id & Hin & He & Hlen & ->).
      apply (proj2 (elem_of_unique_ids id_values id)) in Hin.
      destruct (flagged_or_cleared time_values id_values pgn_values p id He Hlen)
        as [Hf | Hc].
      * left. eexists. apply classify_category_A. exists id. auto.
      * right. apply classify_category_B. exists id. auto.
Qed.

(** C2, as stated, fails for a capture in which the eligible identifier
    [0x123] occurs once: both report files are empty. *)
Lemma reports_miss_single_occurrence :
  ~ reports_cover_eligible [0%float] [0x123] ∅ default_threshold_percentage.
Proof.
  intros (r & Hr & _ & Hcover).
  rewrite plot_data_Ok in Hr. injection Hr as <-.
  assert (H : "0x123"%string ∈ ([] : list string) \/ "0x123"%string ∈ ([] : list string)).
  { apply Hcover. exists 0x123. split; [apply list_elem_of_here |].
    split; [| reflexivity]. split; [lia | apply not_elem_of_empty]. }
  destruct H as [H | H]; inversion H.
Qed.


(** C7, as amended: the loader reads the rows at positions 26 to [25 +
    num_rows] among the [table:table-row] children of each parent
    element, in document order, taking field 1 of the first cell's
    [;]-separated text as the float timestamp and field 5 as the
    hexadecimal identifier.  In a document with a single table these are
    rows 26 to [25 + num_rows] of the document; with [num_rows = 0] the
    result is empty. *)
Theorem capture_rows_are_counted_per_table (float_of_string : string -> option float) :
  (forall (root : element) (num_rows : Z),
      let rows := xpath_rows (row_window num_rows) root in
      parse_ods_file float_of_string root num_rows = load_rows float_of_string rows
      /\ rows `sublist_of` xpath_rows (fun _ => true) root
      /\ forall r, In r rows
                   <-> exists parent i,
                         In parent (self_and_descendants root)
                         /\ nth_error (List.filter is_row (children parent)) i = Some r
                         /\ 25 <= Z.of_nat i < 25 + num_rows)
  /\ (forall (root : element) (num_rows : Z) (kids : list element),
         single_table kids root ->
         xpath_rows (row_window num_rows) root
         = window num_rows (xpath_rows (fun _ => true) root)
         /\ parse_ods_file float_of_string root num_rows
            = load_document_rows float_of_string root num_rows)
  /\ (forall (value : option string) (time_ms : float) (id_hex : Z),
         parse_record float_of_string value = Ok (time_ms, id_hex)
         <-> exists s field1 field5,
               value = Some s
               /\ nth_error (split ";" s) 1 = Some field1
               /\ nth_error (split ";" s) 5 = Some field5
               /\ float_of_string field1 = Some time_ms
               /\ int16 field5 = Some id_hex)
  /\ (forall root : element, parse_ods_file float_of_string root 0 = Ok ([], [])).
Proof.
  split; [| split; [| split]].
  - intros root num_rows rows. split; [apply parse_ods_file_load_rows |].
    split; [apply xpath_rows_sublist | intros r; apply in_xpath_rows_window].
  - intros root num_rows kids H.
    assert (Hrows : xpath_rows (row_window num_rows) root
                    = window num_rows (xpath_rows (fun _ => true) root)).
    { rewrite (xpath_rows_single_table num_rows kids root H).
      rewrite (xpath_rows_all_single_table kids root H). reflexivity. }
    split; [exact Hrows |].
    rewrite parse_ods_file_load_rows, Hrows. reflexivity.
  - apply parse_record_Ok.
  - intros root. rewrite parse_ods_file_load_rows, xpath_rows_window_nil by lia.
    reflexivity.
Qed.

Lemma capture_rows_are_counted_per_table_witness :
  single_table (Samples.header ++ [Samples.data_row "0;100;a;b;c;123;d";
                                   Samples.data_row "1;205.5;a;b;c;0x18FEF100;d";
                                   Samples.empty_row;
                                   Samples.data_row "2;300;a;b;c;7ff;d"])
               Samples.one_sheet
  /\ parse_ods_file Samples.float_of_decimal Samples.one_sheet 2
     = load_document_rows Samples.float_of_decimal Samples.one_sheet 2.
Proof.
  assert (H : single_table
                (Samples.header ++ [Samples.data_row "0;100;a;b;c;123;d";
                                    Samples.data_row "1;205.5;a;b;c;0x18FEF100;d";
                                    Samples.empty_row;
                                    Samples.data_row "2;300;a;b;c;7ff;d"])
                Samples.one_sheet).
  { apply (table_below _ _ _ [] _ []); [reflexivity | constructor | constructor |].
    apply table_here; [reflexivity |].
    repeat (constructor; [reflexivity |]). constructor. }
  split; [exact H |].
  exact (proj2 (proj1 (proj2 (capture_rows_are_counted_per_table Samples.float_of_decimal))
                  Samples.one_sheet 2 _ H)).
Defined.

(** C7, as stated, fails on a capture with two sheets of 26 rows: with
    [num_rows = 1] the loader returns the record of row 26 of each sheet,
    where rows 26 to 26 of the document hold one record. *)
Lemma two_sheets_yield_two_records :
  parse_ods_file Samples.float_of_decimal Samples.two_sheets 1
  <> load_document_rows Samples.float_of_decimal Samples.two_sheets 1.
Proof. vm_compute. discriminate. Qed.

(** C8: if a row of the scanned window has a first cell whose text is
    missing or does not have the expected layout (fewer than 6 fields, a
    field 1 that is no float, a field 5 that is no hexadecimal integer),
    the loader raises and returns no lists; a row without cell adds
    nothing and the loop goes on. *)
Theorem malformed_cell_aborts_the_load (float_of_string : string -> option float) :
  (forall (root : element) (num_rows : Z) (row cell : element) (cells : list element),
      In row (xpath_rows (row_window num_rows) root) ->
      xpath_cells row = cell :: cells ->
      malformed float_of_string (text cell) ->
      exists e, parse_ods_file float_of_string root num_rows = Raise e)
  /\ (forall (rows1 : list element) (row : element) (rows2 : list element)
             (acc : list float * list Z),
         xpath_cells row = [] ->
         ods_row float_of_string acc row = Ok acc
         /\ for_each (ods_row float_of_string) (rows1 ++ row :: rows2) acc
            = for_each (ods_row float_of_string) (rows1 ++ rows2) acc).
Proof.
  split.
  - intros root num_rows row cell cells Hrow Hcells Hbad.
    apply parse_record_malformed in Hbad as (e & He).
    rewrite parse_ods_file_load_rows. unfold load_rows.
    destruct (collect_In_Raise
                (omap (row_record float_of_string) (xpath_rows (row_window num_rows) root)) e)
      as (e' & He').
    + apply list_elem_of_In, list_elem_of_omap. exists row.
      split; [apply list_elem_of_In, Hrow |].
      unfold row_record. rewrite Hcells, He. reflexivity.
    + exists e'. rewrite He'. reflexivity.
  - intros rows1 row rows2 acc Hcells.
    assert (Hnone : row_record float_of_string row = None)
      by (unfold row_record; rewrite Hcells; reflexivity).
    split; [unfold ods_row; rewrite Hcells; reflexivity |].
    rewrite !for_each_ods_row, !omap_app. cbn [omap list_omap].
    rewrite Hnone. reflexivity.
Qed.

Lemma malformed_cell_aborts_the_load_witness :
  (exists e, parse_ods_file Samples.float_of_decimal Samples.bad_identifier 2 = Raise e)
  /\ (xpath_cells Samples.empty_row = []
      /\ ods_row Samples.float_of_decimal ([1%float], [0x123]) Samples.empty_row
         = Ok ([1%float], [0x123])).
Proof.
  split.
  - apply (proj1 (malformed_cell_aborts_the_load Samples.float_of_decimal)
             Samples.bad_identifier 2 (Samples.data_row "1;200;a;b;c;xyz;d")
             (Element (qname text_ns "p") (Some "1;200;a;b;c;xyz;d"%string) []) []).
    + vm_compute. right. left. reflexivity.
    + reflexivity.
    + right. right. exists "xyz"%string. split; reflexivity.
  - split; [reflexivity |].
    apply (proj2 (malformed_cell_aborts_the_load Samples.float_of_decimal)
             [] Samples.empty_row [] ([1%float], [0x123])).
    reflexivity.
Defined.

(** C10: whenever the loader returns, its two lists have the same length
    and, paired index by index, are the records of the rows of the window
    that have a cell, in document order; it returns unless one of these
    rows raises. *)
Theorem loader_lists_are_aligned (float_of_string : string -> option float)
    (root : element) (num_rows : Z) :
  let records :=
    omap (row_record float_of_string) (xpath_rows (row_window num_rows) root) in
  match parse_ods_file float_of_string root num_rows with
  | Ok (time_values, id_values) =>
      length time_values = length id_values
      /\ records = map Ok (combine time_values id_values)
  | Raise e => In (Raise e) records
  end.
Proof.
  cbv zeta. rewrite parse_ods_file_load_rows. unfold load_rows.
  destruct (collect (omap (row_record float_of_string)
                          (xpath_rows (row_window num_rows) root)))
    as [records | e] eqn:Hc; cbn [bind].
  - apply collect_Ok in Hc. rewrite Hc. split.
    + rewrite !length_map. reflexivity.
    + f_equal. clear Hc. induction records as [| [t i] records IH]; [reflexivity |].
      cbn [map combine fst snd]. rewrite <- IH. reflexivity.
  - apply collect_Raise, Hc.
Qed.

End Claims.

(** * Further properties of the code *)

Example int10_examples :
  map Main.int10 ["10"; " 12 "; "-3"; "+4"; "007"; "1_000"; "0"; "-0";
                  "0x10"; "1e3"; ""; "_1"; "1_"; "1__0"; "12a"; "1.0"; "- 1"; "+-1"]%string
  = [Some 10; Some 12; Some (-3); Some 4; Some 7; Some 1000; Some 0; Some 0;
     None; None; None; None; None; None; None; None; None; None].
Proof. reflexivity. Qed.

Example main_examples :
  Main.main Samples.float_of_decimal MoreSamples.archives ["data_parser.py"]%string
  = Main.Usage "Usage: data_parser.py <data-ods-file> <pgn-ods-file> <output-dir> <num-rows>"
  /\ Main.main Samples.float_of_decimal MoreSamples.archives
       ["data_parser.py"; "capture.ods"; "reference.ods"; "out"; "eight"]%string
     = Main.Uncaught (Main.Python Py.ValueError)
  /\ Main.main Samples.float_of_decimal MoreSamples.archives
       ["data_parser.py"; "capture.ods"; "missing.ods"; "out"; "8"]%string
     = Main.Uncaught (Main.Unreadable "missing.ods")
  /\ Main.main Samples.float_of_decimal MoreSamples.archives
       ["data_parser.py"; "capture.ods"; "one_sheet.ods"; "out"; "8"]%string
     = Main.Uncaught (Main.Python Py.ValueError)
  /\ match Main.main Samples.float_of_decimal MoreSamples.archives MoreSamples.argv with
     | Main.Finished r =>
         Classifier.category_A_txt r = [("0x124"%string, 1%nat)]
         /\ Classifier.category_B_txt r = ["0x125"%string]
         /\ Classifier.printed r = (1%nat, 1%nat, 2%nat)
         /\ map Classifier.figure_id (Classifier.figures (Classifier.final r))
            = [0x125; 0x124]
     | _ => False
     end.
Proof. vm_compute. repeat split. Qed.

(** ** The decoder on packed identifiers *)

Section DecoderFields.
Import Decoder.

(** The powers of two of the identifier layout, as numbers. *)
Ltac layout :=
  change (2 ^ 29) with 536870912 in *; change (2 ^ 24) with 16777216 in *;
  change (2 ^ 16) with 65536 in *; change (2 ^ 8) with 256 in *.

Lemma lor_shiftl_add (a b n : Z) :
  0 <= n -> 0 <= b < 2 ^ n -> Z.lor (Z.shiftl a n) b = a * 2 ^ n + b.
Proof.
  intros Hn Hb. rewrite <- Z.shiftl_mul_pow2 by exact Hn.
  symmetry. apply Z.add_nocarry_lor.
  apply Z.bits_inj'. intros m Hm. rewrite Z.land_spec, Z.bits_0.
  destruct (Z.lt_ge_cases m n) as [Hlt | Hge].
  - rewrite Z.shiftl_spec_low by exact Hlt. reflexivity.
  - rewrite <- (Z.mod_small b (2 ^ n)) by exact Hb.
    rewrite Z.mod_pow2_bits_high by lia. apply andb_false_r.
Qed.

Lemma extract_pgn_div_mod (id : Z) : extract_pgn id = (id / 2 ^ 8) mod 2 ^ 16.
Proof.
  unfold extract_pgn. change 0xFFFF with (Z.ones 16).
  rewrite Z.land_ones, Z.shiftr_div_pow2 by lia. reflexivity.
Qed.

Lemma get_pgn_div_mod (id : Z) :
  get_pgn id = ((id / 2 ^ 8) mod 2 ^ 8) * 2 ^ 8 + (id / 2 ^ 16) mod 2 ^ 8.
Proof.
  rewrite get_pgn_uniform. change 0xFF with (Z.ones 8).
  rewrite !Z.land_ones, !Z.shiftr_div_pow2 by lia.
  apply lor_shiftl_add; [lia | apply Z.mod_pos_bound; lia].
Qed.

Lemma packed_div (hi pf ps sa : Z) :
  0 <= pf < 2 ^ 8 -> 0 <= ps < 2 ^ 8 -> 0 <= sa < 2 ^ 8 ->
  (hi * 2 ^ 24 + pf * 2 ^ 16 + ps * 2 ^ 8 + sa) / 2 ^ 8 = hi * 2 ^ 16 + pf * 2 ^ 8 + ps
  /\ (hi * 2 ^ 24 + pf * 2 ^ 16 + ps * 2 ^ 8 + sa) / 2 ^ 16 = hi * 2 ^ 8 + pf.
Proof.
  intros Hpf Hps Hsa. layout. split; symmetry.
  - apply Z.div_unique_pos with (r := sa); lia.
  - apply Z.div_unique_pos with (r := ps * 256 + sa); lia.
Qed.

(** X1: [get_can_id] keeps bits 0 to 28 and nothing else: its result is
    in [[0, 2^29)] for every integer, also a negative one; applying it
    twice changes nothing; and it does not see what is added at bit 29 and
    above. *)
Theorem get_can_id_keeps_the_low_29_bits (id : Z) :
  0 <= get_can_id id < 2 ^ 29
  /\ get_can_id (get_can_id id) = get_can_id id
  /\ (forall k : Z, get_can_id (id + k * 2 ^ 29) = get_can_id id)
  /\ (forall n : Z, 0 <= n ->
        Z.testbit (get_can_id id) n = Z.testbit id n && (n <? 29)).
Proof.
  split; [apply get_can_id_range |]. split; [| split].
  - apply get_can_id_small, get_can_id_range.
  - intros k. rewrite !get_can_id_mod. apply Z_mod_plus_full.
  - intros n Hn. unfold get_can_id. change 0x1FFFFFFF with (Z.ones 29).
    rewrite Z.land_spec. f_equal.
    destruct (Z.ltb_spec n 29).
    + apply Z.ones_spec_low. lia.
    + apply Z.ones_spec_high. lia.
Qed.

Lemma get_can_id_keeps_the_low_29_bits_witness :
  Z.testbit (get_can_id (-1)) 28 = true /\ Z.testbit (get_can_id (-1)) 29 = false.
Proof.
  destruct (get_can_id_keeps_the_low_29_bits (-1)) as (_ & _ & _ & Hbits).
  split; [rewrite (Hbits 28) by lia | rewrite (Hbits 29) by lia]; reflexivity.
Defined.

(** X2: [extract_pgn] returns the 16 bits at positions 8 to 23: of an
    identifier packed from a source address [sa], a byte [ps], a byte [pf]
    and anything above, it returns [pf * 2^8 + ps]; its result is always
    in [[0, 2^16)]. *)
Theorem extract_pgn_reads_bits_8_to_23 :
  (forall id : Z, 0 <= extract_pgn id < 2 ^ 16)
  /\ (forall hi pf ps sa : Z,
         0 <= pf < 2 ^ 8 -> 0 <= ps < 2 ^ 8 -> 0 <= sa < 2 ^ 8 ->
         extract_pgn (hi * 2 ^ 24 + pf * 2 ^ 16 + ps * 2 ^ 8 + sa) = pf * 2 ^ 8 + ps).
Proof.
  split.
  - intros id. rewrite extract_pgn_div_mod. apply Z.mod_pos_bound. lia.
  - intros hi pf ps sa Hpf Hps Hsa.
    rewrite extract_pgn_div_mod, (proj1 (packed_div hi pf ps sa Hpf Hps Hsa)).
    replace (hi * 2 ^ 16 + pf * 2 ^ 8 + ps) with (pf * 2 ^ 8 + ps + hi * 2 ^ 16) by lia.
    rewrite Z_mod_plus_full. apply Z.mod_small. layout. lia.
Qed.

Lemma extract_pgn_reads_bits_8_to_23_witness :
  extract_pgn (0x18 * 2 ^ 24 + 0xFE * 2 ^ 16 + 0xF1 * 2 ^ 8 + 0x05) = 0xFE * 2 ^ 8 + 0xF1.
Proof.
  apply (proj2 extract_pgn_reads_bits_8_to_23); layout; lia.
Defined.

(** X3: on the same packed identifier [get_pgn] returns [ps * 2^8 + pf],
    the two bytes in the other order; in general its result is in [[0,
    2^16)], it is [extract_pgn] with its two bytes exchanged, and the two
    functions agree exactly on the identifiers whose two bytes are equal. *)
Theorem get_pgn_exchanges_the_bytes :
  (forall hi pf ps sa : Z,
      0 <= pf < 2 ^ 8 -> 0 <= ps < 2 ^ 8 -> 0 <= sa < 2 ^ 8 ->
      get_pgn (hi * 2 ^ 24 + pf * 2 ^ 16 + ps * 2 ^ 8 + sa) = ps * 2 ^ 8 + pf)
  /\ (forall id : Z,
         0 <= get_pgn id < 2 ^ 16
         /\ get_pgn id = (extract_pgn id mod 2 ^ 8) * 2 ^ 8 + extract_pgn id / 2 ^ 8
         /\ (get_pgn id = extract_pgn id
             <-> extract_pgn id mod 2 ^ 8 = extract_pgn id / 2 ^ 8)).
Proof.
  split.
  - intros hi pf ps sa Hpf Hps Hsa. rewrite get_pgn_div_mod.
    destruct (packed_div hi pf ps sa Hpf Hps Hsa) as [-> ->].
    replace (hi * 2 ^ 16 + pf * 2 ^ 8 + ps) with (ps + (hi * 2 ^ 8 + pf) * 2 ^ 8) by lia.
    replace (hi * 2 ^ 8 + pf) with (pf + hi * 2 ^ 8) at 2 by lia.
    rewrite !Z_mod_plus_full, !Z.mod_small by (layout; lia). reflexivity.
  - intros id.
    assert (Hlow : extract_pgn id mod 2 ^ 8 = (id / 2 ^ 8) mod 2 ^ 8
                   /\ extract_pgn id / 2 ^ 8 = (id / 2 ^ 16) mod 2 ^ 8).
    { rewrite extract_pgn_div_mod.
      change (2 ^ 16) with (2 ^ 8 * 2 ^ 8) at 1 2.
      rewrite Z.rem_mul_r by lia.
      pose proof (Z.mod_pos_bound (id / 2 ^ 8) (2 ^ 8) ltac:(lia)) as H1.
      pose proof (Z.mod_pos_bound (id / 2 ^ 8 / 2 ^ 8) (2 ^ 8) ltac:(lia)) as H2.
      replace (id / 2 ^ 16) with (id / 2 ^ 8 / 2 ^ 8)
        by (rewrite Z.div_div by lia; reflexivity).
      split.
      - rewrite Z.mul_comm, Z_mod_plus_full. apply Z.mod_small, H1.
      - symmetry. apply Z.div_unique_pos with (r := (id / 2 ^ 8) mod 2 ^ 8); lia. }
    destruct Hlow as [Hlo Hhi]. rewrite get_pgn_div_mod, Hlo, Hhi.
    pose proof (Z.mod_pos_bound (id / 2 ^ 8) (2 ^ 8) ltac:(lia)) as H1.
    pose proof (Z.mod_pos_bound (id / 2 ^ 16) (2 ^ 8) ltac:(lia)) as H2.
    pose proof (Z.div_mod (extract_pgn id) (2 ^ 8) ltac:(lia)) as Hdm.
    rewrite Hlo, Hhi in Hdm.
    set (lo := (id / 2 ^ 8) mod 2 ^ 8) in *. set (hi := (id / 2 ^ 16) mod 2 ^ 8) in *.
    clearbody lo hi. layout.
    split; [lia |]. split; [reflexivity |]. lia.
Qed.

Lemma get_pgn_exchanges_the_bytes_witness :
  get_pgn (0x18 * 2 ^ 24 + 0xFE * 2 ^ 16 + 0xF1 * 2 ^ 8 + 0x05) = 0xF1 * 2 ^ 8 + 0xFE.
Proof.
  apply (proj1 get_pgn_exchanges_the_bytes); layout; lia.
Defined.

End DecoderFields.

(** ** The figures, the report files and the printed counts *)

Section ReportFacts.
Import Decoder Py Classifier.

Variable time_values : list float.
Variable id_values : list Z.
Variable pgn_values : gset Z.
Variable p : float.

Local Abbreviation series id := (filtered_time_values time_values id_values id).
Local Abbreviation cts id := (cycle_times (series id)).
Local Abbreviation count id := (exceeded_count (threshold p (np_median (cts id))) (cts id)).
Local Abbreviation classify' := (classify time_values id_values pgn_values p).
Local Abbreviation unique_ids := (elements (list_to_set id_values : gset Z)).
Local Abbreviation eligibleb := (fun id : Z => bool_decide (eligible pgn_values id)).

Lemma map_fmap {A B : Type} (f : A -> B) (l : list A) : map f l = f <$> l.
Proof. induction l as [| a l IH]; cbn; [reflexivity | rewrite IH; reflexivity]. Qed.

Lemma classify_figures_all (order : list Z) :
  figures (classify' order)
  = map (fun id => Figure id (removelast (series id)) (cts id)) (List.filter eligibleb order).
Proof.
  induction order as [| x order IH] using rev_ind; [reflexivity |].
  rewrite classify_snoc, body_figures, List.filter_app. cbn [List.filter].
  case_decide as Hx.
  - rewrite bool_decide_true, map_app, IH by exact Hx. reflexivity.
  - rewrite bool_decide_false, app_nil_r by exact Hx. exact IH.
Qed.

Lemma removelast_length {A : Type} (l : list A) :
  length (removelast l) = (length l - 1)%nat.
Proof. rewrite removelast_firstn_len, length_take. lia. Qed.

Lemma cycle_times_length (f : list float) : length (cycle_times f) = (length f - 1)%nat.
Proof. rewrite cycle_times_differences. apply differences_length. Qed.

Lemma exceeded_count_le (limit : float) (l : list float) :
  (exceeded_count limit l <= length l)%nat.
Proof.
  rewrite exceeded_count_exceedances. unfold exceedances.
  apply List.filter_length_le.
Qed.

(** X4: the figures.  [plot_data] asks for exactly one figure for each
    eligible identifier of the capture, also for one that occurs once or
    only beyond the shorter of the two lists, and for no other; the x
    values are the timestamps of the identifier without the last one, the
    y values its cycle times, so both always have the same length. *)
Theorem one_figure_per_eligible_identifier :
  exists r,
    plot_data time_values id_values pgn_values p = Ok r
    /\ (forall id, id ∈ map figure_id (figures (final r))
                   <-> id ∈ id_values /\ eligible pgn_values id)
    /\ NoDup (map figure_id (figures (final r)))
    /\ Forall (fun g => figure_x g = removelast (series (figure_id g))
                        /\ figure_y g = cts (figure_id g)
                        /\ length (figure_x g) = length (figure_y g))
              (figures (final r)).
Proof.
  eexists. split; [apply plot_data_Ok |]. cbn [final].
  rewrite classify_figures_all, map_map. cbn [figure_id]. rewrite map_id.
  split; [| split].
  - intros id. rewrite list_elem_of_In, filter_In, <- list_elem_of_In.
    rewrite elem_of_unique_ids, bool_decide_eq_true. reflexivity.
  - apply NoDup_ListNoDup, List.NoDup_filter, NoDup_ListNoDup, NoDup_elements.
  - apply Forall_forall. intros g Hg. apply list_elem_of_In, in_map_iff in Hg.
    destruct Hg as (id & <- & _). cbn [figure_id figure_x figure_y].
    split; [reflexivity |]. split; [reflexivity |].
    rewrite removelast_length, cycle_times_length. reflexivity.
Qed.

(** X5: the guard [0x800 > int(can_id, 16) >= 0] of the two report loops
    never raises and never drops an entry: every key of [category_A] and
    every member of [category_B] is written, so the printed counts are the
    numbers of lines of the three files. *)
Theorem report_loops_write_every_entry :
  exists r,
    plot_data time_values id_values pgn_values p = Ok r
    /\ category_A_txt r = map_to_list (category_A (final r))
    /\ category_B_txt r = elements (category_B (final r))
    /\ Forall (fun item => in_report_range (fst item) = Ok true) (category_A_txt r)
    /\ Forall (fun can_id => in_report_range can_id = Ok true) (category_B_txt r)
    /\ printed r = (length (category_A_txt r), length (category_B_txt r),
                    length (blocked_IDs_txt r)).
Proof.
  eexists. split; [apply plot_data_Ok |].
  cbn [final category_A_txt category_B_txt blocked_IDs_txt printed].
  split; [reflexivity |]. split; [reflexivity |]. split; [| split].
  - apply Forall_forall. intros [k c] Hk.
    apply elem_of_map_to_list, classify_category_A in Hk.
    destruct Hk as (id & _ & Hid & -> & _). apply (in_report_range_eligible pgn_values), Hid.
  - apply Forall_forall. intros k Hk.
    apply elem_of_elements, classify_category_B in Hk.
    destruct Hk as (id & _ & Hid & ->). apply (in_report_range_eligible pgn_values), Hid.
  - rewrite length_map_to_list, length_map. reflexivity.
Qed.

(** X6: [blocked_IDs.txt] lists the [hex] of every value of the reference
    set, observed or not, each value once and no two values under the same
    text, whatever the capture holds. *)
Theorem blocked_ids_list_the_reference_set :
  exists r,
    plot_data time_values id_values pgn_values p = Ok r
    /\ (forall k, k ∈ blocked_IDs_txt r <-> exists x, x ∈ pgn_values /\ k = hex x)
    /\ NoDup (blocked_IDs_txt r)
    /\ length (blocked_IDs_txt r) = size pgn_values.
Proof.
  eexists. split; [apply plot_data_Ok |]. cbn [blocked_IDs_txt].
  rewrite map_fmap. split; [| split].
  - intros k. rewrite list_elem_of_fmap. split.
    + intros (x & -> & Hx). exists x. split; [apply elem_of_elements, Hx | reflexivity].
    + intros (x & Hx & ->). exists x. split; [reflexivity | apply elem_of_elements, Hx].
  - apply NoDup_fmap_2_strong; [| apply NoDup_elements].
    intros x y _ _. apply hex_inj.
  - rewrite length_fmap. reflexivity.
Qed.

(** X7: a count written to [category_A.txt] is at least 1 and at most the
    number of cycle times of its identifier, one less than the number of
    its occurrences. *)
Theorem flagged_count_bounds :
  exists r,
    plot_data time_values id_values pgn_values p = Ok r
    /\ forall k c, (k, c) ∈ category_A_txt r ->
         exists id, id ∈ id_values /\ k = hex id
                    /\ (1 <= c <= length (series id) - 1)%nat.
Proof.
  destruct (plot_data_files time_values id_values pgn_values p)
    as (r & Hr & Hfinal & HA & _).
  exists r. split; [exact Hr |]. intros k c Hk.
  apply HA in Hk. rewrite Hfinal in Hk.
  apply classify_category_A in Hk as (id & Hin & (He & Hlen & Hpos) & -> & ->).
  cbv zeta in Hlen, Hpos.
  exists id. split; [apply (proj1 (elem_of_unique_ids id_values id)), Hin |].
  split; [rewrite (eligible_can_id pgn_values id He); reflexivity |].
  pose proof (exceeded_count_le (threshold p (np_median (cts id))) (cts id)) as Hle.
  rewrite cycle_times_length in Hle. lia.
Qed.


Local Abbreviation key := (fun id : Z => hex (get_can_id id)).
Local Abbreviation flaggedb :=
  (fun id : Z => eligibleb id && (0 <? length (cts id))%nat && (0 <? count id)%nat).
Local Abbreviation clearedb :=
  (fun id : Z => eligibleb id && (0 <? length (cts id))%nat && (count id =? 0)%nat).
Local Abbreviation recurringb :=
  (fun id : Z => eligibleb id && (2 <=? length (series id))%nat).

Lemma flaggedb_spec (id : Z) :
  flaggedb id = true <-> flagged_by time_values id_values pgn_values p id.
Proof.
  unfold flagged_by. cbv zeta.
  rewrite !andb_true_iff, bool_decide_eq_true, !Nat.ltb_lt. tauto.
Qed.

Lemma clearedb_spec (id : Z) :
  clearedb id = true <-> cleared_by time_values id_values pgn_values p id.
Proof.
  unfold cleared_by. cbv zeta.
  rewrite !andb_true_iff, bool_decide_eq_true, Nat.ltb_lt, Nat.eqb_eq. tauto.
Qed.

Lemma key_inj_on_filter (f : Z -> bool) (order : list Z) :
  (forall id, f id = true -> eligible pgn_values id) ->
  NoDup order -> NoDup (key <$> List.filter f order).
Proof.
  intros Hf Hnd. apply NoDup_fmap_2_strong.
  - intros x y Hx Hy. apply list_elem_of_In, filter_In in Hx, Hy.
    apply (eligible_key_inj pgn_values); apply Hf; tauto.
  - apply NoDup_ListNoDup, List.NoDup_filter, NoDup_ListNoDup, Hnd.
Qed.

Lemma size_category_A (order : list Z) :
  NoDup order ->
  size (category_A (classify' order)) = length (List.filter flaggedb order).
Proof.
  intros Hnd. rewrite <- length_map_to_list.
  rewrite <- (length_fmap fst), <- (length_fmap key (List.filter flaggedb order)).
  apply Permutation_length, NoDup_Permutation.
  - apply NoDup_fst_map_to_list.
  - apply key_inj_on_filter; [| exact Hnd]. intros id H. apply flaggedb_spec in H. apply H.
  - intros k. rewrite !list_elem_of_fmap. split.
    + intros ([k' c] & -> & H). apply elem_of_map_to_list, classify_category_A in H.
      destruct H as (id & Hin & Hid & Hk & _). exists id. split; [exact Hk |].
      apply list_elem_of_In, filter_In. split; [apply list_elem_of_In, Hin |].
      apply flaggedb_spec, Hid.
    + intros (id & -> & H). apply list_elem_of_In, filter_In in H as [Hin Hid].
      exists (key id, count id). split; [reflexivity |].
      apply elem_of_map_to_list, classify_category_A. exists id.
      split; [apply list_elem_of_In, Hin |]. split; [apply flaggedb_spec, Hid | auto].
Qed.

Lemma size_category_B (order : list Z) :
  NoDup order ->
  size (category_B (classify' order)) = length (List.filter clearedb order).
Proof.
  intros Hnd.
  transitivity (length (key <$> List.filter clearedb order)); [| apply length_fmap].
  change (size (category_B (classify' order)))
    with (length (elements (category_B (classify' order)))).
  apply Permutation_length, NoDup_Permutation.
  - apply NoDup_elements.
  - apply key_inj_on_filter; [| exact Hnd]. intros id H. apply clearedb_spec in H. apply H.
  - intros k. rewrite elem_of_elements, classify_category_B, list_elem_of_fmap. split.
    + intros (id & Hin & Hid & ->). exists id. split; [reflexivity |].
      apply list_elem_of_In, filter_In. split; [apply list_elem_of_In, Hin |].
      apply clearedb_spec, Hid.
    + intros (id & -> & H). apply list_elem_of_In, filter_In in H as [Hin Hid].
      exists id. split; [apply list_elem_of_In, Hin |].
      split; [apply clearedb_spec, Hid | reflexivity].
Qed.

Lemma filter_cons_length {A : Type} (f : A -> bool) (x : A) (l : list A) :
  length (List.filter f (x :: l)) = (Nat.b2n (f x) + length (List.filter f l))%nat.
Proof. cbn [List.filter]. destruct (f x); reflexivity. Qed.

Lemma filter_length_mono {A : Type} (f g : A -> bool) (l : list A) :
  (forall x, f x = true -> g x = true) ->
  (length (List.filter f l) <= length (List.filter g l))%nat.
Proof.
  intros Hfg. induction l as [| x l IH]; [reflexivity |].
  rewrite !filter_cons_length. specialize (Hfg x).
  destruct (f x), (g x); cbn [Nat.b2n]; first [lia | discriminate (Hfg eq_refl)].
Qed.

Lemma flagged_cleared_partition (order : list Z) :
  (length (List.filter flaggedb order) + length (List.filter clearedb order))%nat
  = length (List.filter recurringb order).
Proof.
  induction order as [| x order IH]; [reflexivity |].
  rewrite !filter_cons_length, <- IH.
  assert (Hx : (Nat.b2n (flaggedb x) + Nat.b2n (clearedb x))%nat = Nat.b2n (recurringb x)).
  { cbv beta. rewrite cycle_times_length.
    destruct (bool_decide (eligible pgn_values x)); [| reflexivity]. cbn [andb].
    destruct (Nat.ltb_spec 0 (length (series x) - 1)),
      (Nat.leb_spec 2 (length (series x))); try (exfalso; lia); [| reflexivity].
    cbn [andb]. destruct (count x) as [| n]; reflexivity. }
  cbv beta in Hx |- *. lia.
Qed.

(** X8: the first two printed counts add up to the number of distinct
    eligible identifiers that occur at least two times, which is at most
    the number of figures; the third is the size of the reference set. *)
Theorem printed_counts :
  exists r,
    plot_data time_values id_values pgn_values p = Ok r
    /\ (fst (fst (printed r)) + snd (fst (printed r)))%nat
       = length (List.filter
                   (fun id => bool_decide (eligible pgn_values id)
                              && (2 <=? length (series id))%nat)
                   unique_ids)
    /\ (fst (fst (printed r)) + snd (fst (printed r)) <= length (figures (final r)))%nat
    /\ snd (printed r) = size pgn_values.
Proof.
  eexists. split; [apply plot_data_Ok |]. cbn [printed final fst snd].
  rewrite size_category_A, size_category_B, flagged_cleared_partition
    by apply NoDup_elements.
  split; [reflexivity |]. split; [| reflexivity].
  rewrite classify_figures_all, length_map.
  apply filter_length_mono. intros x Hx. apply andb_true_iff in Hx. apply Hx.
Qed.

(** X9: the two categories depend on which identifiers the loop meets,
    not on their order nor on repetitions: two orders with the same
    members give the same categories, and the categories of [plot_data],
    which runs over a set, are those of a run over the list of the capture
    as it stands. *)
Theorem categories_ignore_the_loop_order :
  (forall order1 order2 : list Z,
      (forall id, id ∈ order1 <-> id ∈ order2) ->
      category_A (classify' order1) = category_A (classify' order2)
      /\ category_B (classify' order1) = category_B (classify' order2))
  /\ exists r,
       plot_data time_values id_values pgn_values p = Ok r
       /\ category_A (final r) = category_A (classify' id_values)
       /\ category_B (final r) = category_B (classify' id_values).
Proof.
  split; [apply classify_order_irrelevant |].
  eexists. split; [apply plot_data_Ok |]. cbn [final].
  apply classify_order_irrelevant. intros id. apply elem_of_unique_ids.
Qed.

End ReportFacts.

Lemma flagged_count_bounds_witness :
  exists id : Z,
    In id [0x123; 0x123; 0x123; 0x123] /\ "0x123"%string = Py.hex id
    /\ (1 <= 1 <= length (Classifier.filtered_time_values [0; 100; 260; 300]%float
                           [0x123; 0x123; 0x123; 0x123]%Z id) - 1)%nat.
Proof.
  destruct (flagged_count_bounds [0; 100; 260; 300]%float [0x123; 0x123; 0x123; 0x123]
              ∅ 5%float) as (r & Hr & Hbounds).
  vm_compute in Hr. injection Hr as <-.
  destruct (Hbounds "0x123"%string 1%nat) as (id & Hin & Hk & Hc).
  - apply list_elem_of_here.
  - exists id. split; [apply list_elem_of_In, Hin |]. split; [exact Hk | exact Hc].
Defined.

Lemma categories_ignore_the_loop_order_witness :
  (forall id : Z, id ∈ [0x123; 0x124; 0x123] <-> id ∈ [0x124; 0x123])
  /\ Classifier.category_A
       (Classifier.classify [0; 10; 100]%float [0x123; 0x124; 0x123] ∅ 5%float
          [0x123; 0x124; 0x123])
     = Classifier.category_A
         (Classifier.classify [0; 10; 100]%float [0x123; 0x124; 0x123] ∅ 5%float
            [0x124; 0x123]).
Proof.
  assert (H : forall id : Z, id ∈ [0x123; 0x124; 0x123] <-> id ∈ [0x124; 0x123]).
  { intros id. rewrite !elem_of_cons, elem_of_nil. tauto. }
  split; [exact H |].
  exact (proj1 (proj1 (categories_ignore_the_loop_order
                         [0; 10; 100]%float [0x123; 0x124; 0x123] ∅ 5%float) _ _ H)).
Defined.

(** ** Edge cases of the classification: NaN and lists of unequal length *)

Section EdgeFacts.
Import Decoder Py Classifier.

Lemma is_nan_Prim2SF (x : float) : PrimFloat.is_nan x = true <-> Prim2SF x = S754_nan.
Proof.
  unfold PrimFloat.is_nan. rewrite negb_true_iff, FloatAxioms.eqb_spec. unfold SFeqb.
  destruct (Prim2SF x) as [s | s | | s m e]; cbn.
  - split; discriminate.
  - destruct s; split; discriminate.
  - split; reflexivity.
  - rewrite Z.compare_refl.
    change (PosDef.Pos.compare_cont Eq m m) with (Pos.compare m m).
    rewrite Pos.compare_refl. destruct s; split; discriminate.
Qed.

Lemma sub_nan (x y : float) :
  PrimFloat.is_nan x = true \/ PrimFloat.is_nan y = true ->
  PrimFloat.is_nan (PrimFloat.sub x y) = true.
Proof.
  rewrite !is_nan_Prim2SF, sub_spec. unfold SF64sub, SFsub.
  intros [-> | ->]; [reflexivity |]. destruct (Prim2SF x); reflexivity.
Qed.

Lemma threshold_nan (p : float) : Prim2SF (threshold p PrimFloat.nan) = S754_nan.
Proof. unfold threshold. rewrite mul_spec. reflexivity. Qed.

Lemma exceeded_count_nan (limit : float) (cts : list float) :
  Prim2SF limit = S754_nan -> exceeded_count limit cts = 0%nat.
Proof.
  intros H. rewrite exceeded_count_exceedances. unfold exceedances.
  induction cts as [| c cts IH]; [reflexivity |]. cbn [List.filter].
  rewrite FloatAxioms.ltb_spec. unfold SFltb. rewrite H. exact IH.
Qed.

Lemma np_median_nan (cts : list float) :
  existsb PrimFloat.is_nan cts = true -> np_median cts = PrimFloat.nan.
Proof.
  intros H. unfold np_median. destruct cts as [| c cts]; [discriminate |].
  rewrite H. reflexivity.
Qed.

Lemma differences_nan (series : list float) :
  (2 <= length series)%nat ->
  existsb PrimFloat.is_nan series = true ->
  existsb PrimFloat.is_nan (differences series) = true.
Proof.
  induction series as [| a [| b t] IH]; cbn [length]; try lia.
  intros _ H.
  change (differences (a :: b :: t)) with (PrimFloat.sub b a :: differences (b :: t)).
  cbn [existsb] in H |- *.
  destruct (PrimFloat.is_nan a) eqn:Ha;
    [rewrite sub_nan by (right; exact Ha); reflexivity |].
  destruct (PrimFloat.is_nan b) eqn:Hb;
    [rewrite sub_nan by (left; exact Hb); reflexivity |].
  cbn [orb] in H. apply orb_true_iff. right. apply IH.
  - destruct t; [discriminate | cbn; lia].
  - cbn [existsb]. rewrite Hb. exact H.
Qed.

(** X10: an eligible identifier that has a NaN among its timestamps (and
    occurs at least two times) is never flagged: a cycle time is NaN, so
    the median and the threshold are NaN, no cycle time compares greater,
    and the identifier is written to [category_B.txt]. *)
Theorem nan_series_is_clean (time_values : list float) (id_values : list Z)
    (pgn_values : gset Z) (p : float) (id : Z) :
  id ∈ id_values -> eligible pgn_values id ->
  (2 <= length (filtered_time_values time_values id_values id))%nat ->
  existsb PrimFloat.is_nan (filtered_time_values time_values id_values id) = true ->
  exists r,
    plot_data time_values id_values pgn_values p = Ok r
    /\ outcome (final r) (hex (get_can_id id)) = Some Clean
    /\ hex (get_can_id id) ∈ category_B_txt r.
Proof.
  intros Hin He Hlen Hnan.
  set (series := filtered_time_values time_values id_values id) in *.
  assert (Hc : cleared_by time_values id_values pgn_values p id).
  { unfold cleared_by. cbv zeta. fold series.
    split; [exact He |]. split.
    - rewrite cycle_times_differences, differences_length. lia.
    - apply exceeded_count_nan. rewrite np_median_nan; [apply threshold_nan |].
      rewrite cycle_times_differences. apply differences_nan; assumption. }
  destruct (plot_data_files time_values id_values pgn_values p)
    as (r & Hr & Hfinal & _ & _ & HB & _).
  exists r. split; [exact Hr |]. split.
  - rewrite Hfinal. apply outcome_classify. exists id.
    split; [apply elem_of_unique_ids, Hin |]. split; [reflexivity |].
    right. split; [exact Hc | reflexivity].
  - apply HB. rewrite Hfinal. apply classify_category_B. exists id.
    split; [apply elem_of_unique_ids, Hin |]. split; [exact Hc | reflexivity].
Qed.

Lemma nan_series_is_clean_witness :
  exists r,
    plot_data [0; PrimFloat.nan; 500]%float [0x123; 0x123; 0x123] ∅ 5%float = Ok r
    /\ outcome (final r) (hex (get_can_id 0x123)) = Some Clean
    /\ hex (get_can_id 0x123) ∈ category_B_txt r.
Proof.
  apply nan_series_is_clean.
  - apply list_elem_of_here.
  - split; [lia | apply not_elem_of_empty].
  - vm_compute. lia.
  - vm_compute. reflexivity.
Defined.

Section Truncation.

Variable time_values : list float.
Variable id_values : list Z.
Variable pgn_values : gset Z.
Variable p : float.

Local Abbreviation n := (Nat.min (length time_values) (length id_values)).

Lemma combine_take_min :
  combine (take n id_values) (take n time_values) = combine id_values time_values.
Proof.
  rewrite <- combine_firstn. apply firstn_all2.
  rewrite length_combine. lia.
Qed.

Lemma filtered_time_values_take (id : Z) :
  filtered_time_values (take n time_values) (take n id_values) id
  = filtered_time_values time_values id_values id.
Proof. unfold filtered_time_values. rewrite combine_take_min. reflexivity. Qed.

Lemma series_member (tv : list float) (ids : list Z) (id : Z) :
  (0 < length (cycle_times (filtered_time_values tv ids id)))%nat -> id ∈ ids.
Proof.
  rewrite cycle_times_differences, differences_length. intros H.
  unfold filtered_time_values in H. rewrite length_map in H.
  destruct (List.filter (fun q => fst q =? id) (combine ids tv)) as [| [i t] l] eqn:Hf;
    [cbn in H; lia |].
  assert (Hin : In (i, t) (List.filter (fun q => fst q =? id) (combine ids tv)))
    by (rewrite Hf; left; reflexivity).
  apply filter_In in Hin as [Hin Heq]. cbn in Heq. apply Z.eqb_eq in Heq. subst i.
  apply list_elem_of_In. exact (in_combine_l _ _ _ _ Hin).
Qed.

Lemma classify_take (order order' : list Z) :
  (forall id, id ∈ order <-> id ∈ id_values) ->
  (forall id, id ∈ order' <-> id ∈ take n id_values) ->
  category_A (classify (take n time_values) (take n id_values) pgn_values p order')
  = category_A (classify time_values id_values pgn_values p order)
  /\ category_B (classify (take n time_values) (take n id_values) pgn_values p order')
     = category_B (classify time_values id_values pgn_values p order).
Proof.
  intros Horder Horder'.
  assert (Hsub : forall id, id ∈ take n id_values -> id ∈ id_values).
  { intros id H. apply elem_of_take in H as (i & Hi & _).
    apply list_elem_of_lookup. exists i. exact Hi. }
  split.
  - apply map_eq. intros k. apply option_eq. intros c.
    rewrite !classify_category_A. unfold flagged_by. cbv zeta.
    split; intros (id & Hin & (He & Hlen & Hpos) & Hk & Hc); exists id.
    + rewrite filtered_time_values_take in Hlen, Hpos, Hc.
      split; [apply Horder, Hsub, Horder', Hin | auto].
    + split; [apply Horder' |]; rewrite ?filtered_time_values_take; auto.
      apply (series_member (take n time_values)).
      rewrite filtered_time_values_take. exact Hlen.
  - apply set_eq. intros k.
    rewrite !classify_category_B. unfold cleared_by. cbv zeta.
    split; intros (id & Hin & (He & Hlen & Hz) & Hk); exists id.
    + rewrite filtered_time_values_take in Hlen, Hz.
      split; [apply Horder, Hsub, Horder', Hin | auto].
    + split; [apply Horder' |]; rewrite ?filtered_time_values_take; auto.
      apply (series_member (take n time_values)).
      rewrite filtered_time_values_take. exact Hlen.
Qed.

(** X11: when the two lists do not have the same length, what lies beyond
    the shorter one is not classified: the report files and the printed
    counts are those of the two lists cut to their common length. *)
Theorem surplus_entries_are_not_classified :
  exists r r',
    plot_data time_values id_values pgn_values p = Ok r
    /\ plot_data (take n time_values) (take n id_values) pgn_values p = Ok r'
    /\ category_A_txt r = category_A_txt r'
    /\ category_B_txt r = category_B_txt r'
    /\ printed r = printed r'.
Proof.
  do 2 eexists. split; [apply plot_data_Ok |]. split; [apply plot_data_Ok |].
  cbn [category_A_txt category_B_txt printed].
  destruct (classify_take (elements (list_to_set id_values : gset Z))
              (elements (list_to_set (take n id_values) : gset Z)))
    as [-> ->]; [apply elem_of_unique_ids .. |].
  repeat split; reflexivity.
Qed.

End Truncation.

End EdgeFacts.

(** ** The reference-set loader *)

Section ReferenceFacts.
Import Py Xml Loader Reference.

Lemma pgn_row_record (acc : list Z) (row : element) :
  pgn_row acc row
  = match pgn_record row with
    | None => Ok acc
    | Some r => let* value := r in Ok (acc ++ [value])
    end.
Proof.
  unfold pgn_row, pgn_record. destruct (xpath_cells row) as [| cell cells]; [reflexivity |].
  destruct (text cell) as [s |]; cbn [of_option bind]; [| reflexivity].
  destruct (int16 s); reflexivity.
Qed.

Lemma for_each_pgn_row (rows : list element) (acc : list Z) :
  for_each pgn_row rows acc
  = let* values := collect (omap pgn_record rows) in Ok (acc ++ values).
Proof.
  revert acc. induction rows as [| row rows IH]; intros acc.
  - cbn. rewrite app_nil_r. reflexivity.
  - cbn [for_each omap list_omap]. rewrite pgn_row_record.
    destruct (pgn_record row) as [[v | e] |]; cbn [bind collect].
    + rewrite IH.
      destruct (collect (omap pgn_record rows)) as [values | e]; cbn [bind];
        [| reflexivity].
      rewrite <- app_assoc. reflexivity.
    + reflexivity.
    + apply IH.
Qed.

Lemma parse_pgn_file_collect (root : element) :
  parse_pgn_file root
  = let* values := collect (omap pgn_record (xpath_rows (fun _ => true) root)) in
    Ok (list_to_set values).
Proof.
  unfold parse_pgn_file. rewrite for_each_pgn_row.
  destruct (collect (omap pgn_record (xpath_rows (fun _ => true) root))); reflexivity.
Qed.

(** X12: when [parse_pgn_file] returns, the set holds exactly the values
    read from the first cells of the rows of the document that have a
    cell; it raises only an exception of one of these rows.  The set does
    not depend on the order of the rows nor on repeated values: two
    documents whose rows give the same values give the same set. *)
Theorem reference_set_members :
  (forall root : element,
      let records := omap pgn_record (xpath_rows (fun _ => true) root) in
      match parse_pgn_file root with
      | Ok pgn_values => forall v : Z, v ∈ pgn_values <-> In (Ok v) records
      | Raise e => In (Raise e) records
      end)
  /\ (forall (root1 root2 : element) (s1 s2 : gset Z),
         parse_pgn_file root1 = Ok s1 -> parse_pgn_file root2 = Ok s2 ->
         (forall v : Z,
             In (Ok v) (omap pgn_record (xpath_rows (fun _ => true) root1))
             <-> In (Ok v) (omap pgn_record (xpath_rows (fun _ => true) root2))) ->
         s1 = s2).
Proof.
  assert (Hmem : forall root : element,
             match parse_pgn_file root with
             | Ok pgn_values =>
                 forall v : Z,
                   v ∈ pgn_values
                   <-> In (Ok v) (omap pgn_record (xpath_rows (fun _ => true) root))
             | Raise e => In (Raise e) (omap pgn_record (xpath_rows (fun _ => true) root))
             end).
  { intros root. rewrite parse_pgn_file_collect.
    destruct (collect (omap pgn_record (xpath_rows (fun _ => true) root)))
      as [values | e] eqn:Hc; cbn [bind].
    - apply collect_Ok in Hc. rewrite Hc. intros v.
      rewrite elem_of_list_to_set, list_elem_of_In, in_map_iff. split.
      + intros H. exists v. split; [reflexivity | exact H].
      + intros (v' & [= ->] & H). exact H.
    - apply collect_Raise, Hc. }
  split; [exact Hmem |].
  intros root1 root2 s1 s2 H1 H2 Hsame.
  pose proof (Hmem root1) as M1. pose proof (Hmem root2) as M2.
  rewrite H1 in M1. rewrite H2 in M2.
  apply set_eq. intros v. rewrite M1, M2. apply Hsame.
Qed.

Lemma reference_set_members_witness :
  Loader.parse_pgn_file MoreSamples.reference = Ok {[0x7ff; 0x123]}
  /\ Loader.parse_pgn_file
       (Samples.elem "office" "document-content"
          [Samples.table [Samples.data_row "123"; Samples.data_row "7ff"]])
     = Ok {[0x7ff; 0x123]}.
Proof.
  assert (H1 : Loader.parse_pgn_file MoreSamples.reference = Ok {[0x7ff; 0x123]})
    by (vm_compute; reflexivity).
  split; [exact H1 |].
  destruct (Loader.parse_pgn_file
              (Samples.elem "office" "document-content"
                 [Samples.table [Samples.data_row "123"; Samples.data_row "7ff"]]))
    as [s2 | e] eqn:H2; [| vm_compute in H2; discriminate].
  f_equal. symmetry.
  apply (proj2 reference_set_members _ _ _ _ H1 H2).
  intros v. vm_compute. tauto.
Defined.

(** X13: the reference loader reads every row of the document: there is
    no window, so the first 25 rows count too.  A first cell without text
    or with a text that is no hexadecimal integer, in any row, makes it
    raise; rows without cell are passed over. *)
Theorem reference_rows_are_all_parsed :
  (forall (root : element) (kids : list element),
      single_table kids root ->
      xpath_rows (fun _ => true) root = List.filter is_row kids)
  /\ (forall (root row cell : element) (cells : list element),
         In row (xpath_rows (fun _ => true) root) ->
         xpath_cells row = cell :: cells ->
         text cell = None \/ (exists s, text cell = Some s /\ int16 s = None) ->
         exists e, parse_pgn_file root = Raise e)
  /\ (forall (rows1 : list element) (row : element) (rows2 : list element)
             (acc : list Z),
         xpath_cells row = [] ->
         for_each pgn_row (rows1 ++ row :: rows2) acc
         = for_each pgn_row (rows1 ++ rows2) acc).
Proof.
  split; [| split].
  - intros root kids H. apply (xpath_rows_all_single_table kids root H).
  - intros root row cell cells Hrow Hcells Hbad.
    assert (Hrec : exists e, pgn_record row = Some (Raise e)).
    { unfold pgn_record. rewrite Hcells.
      destruct Hbad as [-> | (s & -> & Hs)]; cbn [of_option bind].
      - exists TypeError. reflexivity.
      - rewrite Hs. exists ValueError. reflexivity. }
    destruct Hrec as (e & He). rewrite parse_pgn_file_collect.
    destruct (collect_In_Raise (omap pgn_record (xpath_rows (fun _ => true) root)) e)
      as (e' & He').
    + apply list_elem_of_In, list_elem_of_omap. exists row.
      split; [apply list_elem_of_In, Hrow | exact He].
    + exists e'. rewrite He'. reflexivity.
  - intros rows1 row rows2 acc Hcells.
    assert (Hnone : pgn_record row = None)
      by (unfold pgn_record; rewrite Hcells; reflexivity).
    rewrite !for_each_pgn_row, !omap_app. cbn [omap list_omap].
    rewrite Hnone. reflexivity.
Qed.

Lemma reference_rows_are_all_parsed_witness :
  (exists e, parse_pgn_file Samples.one_sheet = Raise e)
  /\ for_each pgn_row ([Samples.data_row "7ff"] ++ Samples.empty_row :: []) []
     = for_each pgn_row ([Samples.data_row "7ff"] ++ []) []
  /\ xpath_rows (fun _ => true) MoreSamples.reference
     = List.filter is_row [Samples.data_row "7ff"; Samples.data_row "0x123";
                           Samples.empty_row; Samples.data_row "7FF"].
Proof.
  split; [| split].
  - apply (proj1 (proj2 reference_rows_are_all_parsed)
             Samples.one_sheet (Samples.data_row "header")
             (Element (qname text_ns "p") (Some "header"%string) []) []).
    + vm_compute. left. reflexivity.
    + reflexivity.
    + right. exists "header"%string. split; reflexivity.
  - apply (proj2 (proj2 reference_rows_are_all_parsed)). reflexivity.
  - apply (proj1 reference_rows_are_all_parsed).
    apply (table_below _ _ _ [] _ []); [reflexivity | constructor | constructor |].
    apply table_here; [reflexivity |].
    repeat (constructor; [reflexivity |]). constructor.
Defined.

End ReferenceFacts.

(** ** The window of the capture loader *)

Section WindowFacts.
Import Py Xml Loader Classifier.

Variable float_of_string : string -> option float.

Local Abbreviation row_record' := (row_record float_of_string).
Local Abbreviation parse' := (parse_ods_file float_of_string).

Lemma child_rows_mono (pred1 pred2 : Z -> bool) (cs : list element) :
  (forall i, pred1 i = true -> pred2 i = true) ->
  Forall (fun c => descendant_rows pred1 c `sublist_of` descendant_rows pred2 c) cs ->
  forall position,
    child_rows (descendant_rows pred1) pred1 cs position
    `sublist_of` child_rows (descendant_rows pred2) pred2 cs position.
Proof.
  intros Hpred. induction 1 as [| c cs Hc _ IH]; intros position; [constructor |].
  rewrite !child_rows_cons. destruct (is_row c).
  - apply sublist_app; [| apply sublist_app; [exact Hc | apply IH]].
    specialize (Hpred (position + 1)).
    destruct (pred1 (position + 1)); [rewrite Hpred by reflexivity; reflexivity |].
    apply sublist_nil_l.
  - apply sublist_app; [exact Hc | apply IH].
Qed.

Lemma xpath_rows_mono (pred1 pred2 : Z -> bool) (root : element) :
  (forall i, pred1 i = true -> pred2 i = true) ->
  xpath_rows pred1 root `sublist_of` xpath_rows pred2 root.
Proof.
  intros Hpred. unfold xpath_rows. apply sublist_app.
  - destruct (is_row root); cbn [andb]; [| constructor].
    specialize (Hpred 1).
    destruct (pred1 1); [rewrite Hpred by reflexivity; reflexivity | apply sublist_nil_l].
  - induction root as [t x cs IH] using element_ind'.
    rewrite !descendant_rows_unfold. apply child_rows_mono; assumption.
Qed.

Lemma row_window_mono (n n' i : Z) :
  n <= n' -> row_window n i = true -> row_window n' i = true.
Proof.
  unfold row_window. rewrite !andb_true_iff, !Z.ltb_lt, !Z.leb_le. lia.
Qed.

Lemma omap_sublist {A B : Type} (f : A -> option B) (l1 l2 : list A) :
  l1 `sublist_of` l2 -> omap f l1 `sublist_of` omap f l2.
Proof.
  induction 1 as [| x l1 l2 _ IH | x l1 l2 _ IH]; cbn [omap list_omap].
  - constructor.
  - destruct (f x); [constructor |]; exact IH.
  - destruct (f x); [constructor |]; exact IH.
Qed.

Lemma collect_sublist {A : Type} (l1 l2 : list (result A)) :
  l1 `sublist_of` l2 ->
  forall values2, collect l2 = Ok values2 ->
    exists values1, collect l1 = Ok values1 /\ values1 `sublist_of` values2.
Proof.
  induction 1 as [| r l1 l2 _ IH | r l1 l2 _ IH]; intros values2 H2.
  - exists []. split; [reflexivity | apply sublist_nil_l].
  - cbn [collect] in H2 |- *. destruct r as [a | e]; cbn [bind] in H2 |- *; [| discriminate].
    destruct (collect l2) as [v2 | e] eqn:Hl2; cbn [bind] in H2; [| discriminate].
    injection H2 as <-. destruct (IH v2 eq_refl) as (v1 & -> & Hs).
    exists (a :: v1). split; [reflexivity | constructor; exact Hs].
  - cbn [collect] in H2. destruct r as [a | e]; cbn [bind] in H2; [| discriminate].
    destruct (collect l2) as [v2 | e] eqn:Hl2; cbn [bind] in H2; [| discriminate].
    injection H2 as <-. destruct (IH v2 eq_refl) as (v1 & -> & Hs).
    exists v1. split; [reflexivity | constructor; exact Hs].
Qed.

Lemma collect_app {A : Type} (l1 l2 : list (result A)) (values : list A) :
  collect (l1 ++ l2) = Ok values ->
  exists values1 values2,
    collect l1 = Ok values1 /\ collect l2 = Ok values2 /\ values = values1 ++ values2.
Proof.
  intros H. apply collect_Ok in H.
  exists (take (length l1) values), (drop (length l1) values).
  assert (Hl : l1 = map Ok (take (length l1) values)
               /\ l2 = map Ok (drop (length l1) values)).
  { assert (Hlen : length (l1 ++ l2) = length values)
      by (rewrite H, length_map; reflexivity).
    rewrite length_app in Hlen.
    rewrite <- (take_drop (length l1) values) in H at 1.
    rewrite map_app in H. apply app_inj_1 in H; [exact H |].
    rewrite length_map, length_take. lia. }
  destruct Hl as [H1 H2]. split; [apply collect_Ok, H1 |].
  split; [apply collect_Ok, H2 | symmetry; apply take_drop].
Qed.

Lemma load_rows_Ok (rows : list element) (ts : list float) (ids : list Z) :
  load_rows float_of_string rows = Ok (ts, ids)
  <-> exists records,
        collect (omap row_record' rows) = Ok records
        /\ ts = map fst records /\ ids = map snd records.
Proof.
  unfold load_rows. destruct (collect (omap row_record' rows)) as [records | e];
    cbn [bind].
  - split.
    + intros [= <- <-]. exists records. auto.
    + intros (records' & [= <-] & -> & ->). reflexivity.
  - split; [discriminate | intros (records' & H & _); discriminate].
Qed.

(** X14: a smaller row count reads a part of what a larger one reads.
    If the load succeeds with [num_rows'], it succeeds with every smaller
    [num_rows], and its lists are sublists of the larger ones; in a
    document with a single table they are their first members.  So an
    exception raised with some row count is raised with every larger one. *)
Theorem smaller_window_reads_a_part :
  (forall (root : element) (num_rows num_rows' : Z) (ts' : list float) (ids' : list Z),
      num_rows <= num_rows' ->
      parse' root num_rows' = Ok (ts', ids') ->
      exists ts ids,
        parse' root num_rows = Ok (ts, ids)
        /\ ts `sublist_of` ts' /\ ids `sublist_of` ids')
  /\ (forall (root : element) (kids : list element) (num_rows num_rows' : Z)
             (ts' : list float) (ids' : list Z),
         single_table kids root ->
         num_rows <= num_rows' ->
         parse' root num_rows' = Ok (ts', ids') ->
         exists k, parse' root num_rows = Ok (take k ts', take k ids')).
Proof.
  split.
  - intros root n n' ts' ids' Hle H'.
    rewrite parse_ods_file_load_rows in H' |- *.
    apply load_rows_Ok in H' as (records' & Hc' & -> & ->).
    destruct (collect_sublist
                (omap row_record' (xpath_rows (row_window n) root))
                (omap row_record' (xpath_rows (row_window n') root)))
      with (values2 := records') as (records & Hc & Hs); [| exact Hc' |].
    + apply omap_sublist, xpath_rows_mono. intros i. apply row_window_mono, Hle.
    + exists (map fst records), (map snd records).
      split; [apply load_rows_Ok; exists records; auto |].
      rewrite !map_fmap. split; apply fmap_sublist, Hs.
  - intros root kids n n' ts' ids' Htable Hle H'.
    rewrite parse_ods_file_load_rows in H' |- *.
    rewrite (xpath_rows_single_table n' kids root Htable) in H'.
    rewrite (xpath_rows_single_table n kids root Htable).
    apply load_rows_Ok in H' as (records' & Hc' & -> & ->).
    unfold window in Hc' |- *.
    set (rows := drop 25 (List.filter is_row kids)) in *.
    assert (Hsplit : take (Z.to_nat n') rows
                     = take (Z.to_nat n) rows
                         ++ drop (Z.to_nat n) (take (Z.to_nat n') rows)).
    { rewrite <- (take_drop (Z.to_nat n) (take (Z.to_nat n') rows)) at 1.
      rewrite take_take. f_equal. f_equal. lia. }
    rewrite Hsplit, omap_app in Hc'.
    apply collect_app in Hc' as (records & rest & Hc & _ & ->).
    exists (length records). apply load_rows_Ok. exists records.
    split; [exact Hc |].
    rewrite !map_app, <- (length_map fst records) at 1.
    rewrite take_app_length.
    rewrite <- (length_map snd records), take_app_length. auto.
Qed.

(** X15: the edges of the window.  A row count of zero or less gives two
    empty lists for every document.  In a document with a single table, a
    table of at most 25 rows gives two empty lists for every row count,
    and every row count that reaches the last row gives the same result:
    all the rows from row 26 on. *)
Theorem window_edges :
  (forall (root : element) (num_rows : Z),
      num_rows <= 0 -> parse' root num_rows = Ok ([], []))
  /\ (forall (root : element) (kids : list element) (num_rows : Z),
         single_table kids root ->
         (length (List.filter is_row kids) <= 25)%nat ->
         parse' root num_rows = Ok ([], []))
  /\ (forall (root : element) (kids : list element) (num_rows num_rows' : Z),
         single_table kids root ->
         Z.of_nat (length (List.filter is_row kids)) - 25 <= num_rows ->
         Z.of_nat (length (List.filter is_row kids)) - 25 <= num_rows' ->
         parse' root num_rows = parse' root num_rows'
         /\ parse' root num_rows
            = load_rows float_of_string (drop 25 (List.filter is_row kids))).
Proof.
  split; [| split].
  - intros root n Hn.
    rewrite parse_ods_file_load_rows, xpath_rows_window_nil by exact Hn. reflexivity.
  - intros root kids n Htable Hlen.
    rewrite parse_ods_file_load_rows, (xpath_rows_single_table n kids root Htable).
    unfold window. rewrite (drop_ge (List.filter is_row kids) 25) by exact Hlen.
    rewrite take_nil. reflexivity.
  - intros root kids n n' Htable Hn Hn'.
    assert (Hall : forall m : Z,
               Z.of_nat (length (List.filter is_row kids)) - 25 <= m ->
               parse' root m = load_rows float_of_string (drop 25 (List.filter is_row kids))).
    { intros m Hm.
      rewrite parse_ods_file_load_rows, (xpath_rows_single_table m kids root Htable).
      unfold window. rewrite take_ge; [reflexivity |]. rewrite length_drop. lia. }
    rewrite (Hall n Hn), (Hall n' Hn'). split; reflexivity.
Qed.

Lemma filtered_time_values_records (records : list (float * Z)) (id : Z) :
  filtered_time_values (map fst records) (map snd records) id
  = map fst (List.filter (fun r => snd r =? id) records).
Proof.
  unfold filtered_time_values.
  induction records as [| [t i] records IH]; [reflexivity |].
  cbn [map combine List.filter fst snd].
  destruct (i =? id); cbn [map snd]; rewrite IH; reflexivity.
Qed.

(** X16: the loader and the classifier fit together.  When the loader
    returns, the series [plot_data] builds for an identifier is the list
    of the timestamps of the rows of the window that carry this
    identifier, in row order, and the identifiers it meets are those of
    these rows. *)
Theorem series_follow_the_rows (root : element) (num_rows : Z)
    (time_values : list float) (id_values : list Z) :
  parse' root num_rows = Ok (time_values, id_values) ->
  exists records,
    omap row_record' (xpath_rows (row_window num_rows) root) = map Ok records
    /\ (forall id,
           filtered_time_values time_values id_values id
           = map fst (List.filter (fun r => snd r =? id) records))
    /\ (forall id, id ∈ id_values <-> exists t, In (t, id) records).
Proof.
  intros H. rewrite parse_ods_file_load_rows in H.
  apply load_rows_Ok in H as (records & Hc & -> & ->).
  exists records. split; [apply collect_Ok, Hc |]. split.
  - apply filtered_time_values_records.
  - intros id. rewrite list_elem_of_In, in_map_iff. split.
    + intros ([t i] & Hi & Hin). cbn in Hi. subst i. exists t. exact Hin.
    + intros (t & Hin). exists (t, id). split; [reflexivity | exact Hin].
Qed.

End WindowFacts.

Lemma one_sheet_single_table :
  Xml.single_table
    (Samples.header ++ [Samples.data_row "0;100;a;b;c;123;d";
                        Samples.data_row "1;205.5;a;b;c;0x18FEF100;d";
                        Samples.empty_row;
                        Samples.data_row "2;300;a;b;c;7ff;d"])
    Samples.one_sheet.
Proof.
  apply (Xml.table_below _ _ _ [] _ []); [reflexivity | constructor | constructor |].
  apply Xml.table_here; [reflexivity |].
  repeat (constructor; [reflexivity |]). constructor.
Defined.

Lemma smaller_window_reads_a_part_witness :
  (exists ts ids,
      Loader.parse_ods_file Samples.float_of_decimal Samples.one_sheet 1 = Py.Ok (ts, ids)
      /\ ts `sublist_of` [100; 205.5; 300]%float
      /\ ids `sublist_of` [0x123; 0x18FEF100; 0x7ff])
  /\ (exists k,
         Loader.parse_ods_file Samples.float_of_decimal Samples.one_sheet 2
         = Py.Ok (take k [100; 205.5; 300]%float, take k [0x123; 0x18FEF100; 0x7ff])).
Proof.
  assert (H : Loader.parse_ods_file Samples.float_of_decimal Samples.one_sheet 10
              = Py.Ok ([100; 205.5; 300]%float, [0x123; 0x18FEF100; 0x7ff]))
    by (vm_compute; reflexivity).
  split.
  - apply (proj1 (smaller_window_reads_a_part Samples.float_of_decimal)
             Samples.one_sheet 1 10 _ _ ltac:(lia) H).
  - apply (proj2 (smaller_window_reads_a_part Samples.float_of_decimal)
             Samples.one_sheet _ 2 10 _ _ one_sheet_single_table ltac:(lia) H).
Defined.

Lemma window_edges_witness :
  Loader.parse_ods_file Samples.float_of_decimal Samples.one_sheet (-3) = Py.Ok ([], [])
  /\ Loader.parse_ods_file Samples.float_of_decimal Samples.one_sheet 4
     = Loader.parse_ods_file Samples.float_of_decimal Samples.one_sheet 1000
  /\ Loader.parse_ods_file Samples.float_of_decimal MoreSamples.reference 7
     = Py.Ok ([], []).
Proof.
  split; [| split].
  - apply (proj1 (window_edges Samples.float_of_decimal)). lia.
  - apply (proj2 (proj2 (window_edges Samples.float_of_decimal))
             Samples.one_sheet _ 4 1000 one_sheet_single_table);
      vm_compute; discriminate.
  - apply (proj1 (proj2 (window_edges Samples.float_of_decimal))
             MoreSamples.reference
             [Samples.data_row "7ff"; Samples.data_row "0x123";
              Samples.empty_row; Samples.data_row "7FF"]).
    + apply (Xml.table_below _ _ _ [] _ []); [reflexivity | constructor | constructor |].
      apply Xml.table_here; [reflexivity |].
      repeat (constructor; [reflexivity |]). constructor.
    + vm_compute. lia.
Defined.

Lemma series_follow_the_rows_witness :
  exists records,
    omap (Loader.row_record Samples.float_of_decimal)
         (Xml.xpath_rows (Loader.row_window 11) MoreSamples.capture)
    = map Py.Ok records
    /\ Classifier.filtered_time_values
         [0; 10; 20; 100; 110; 120; 150; 220; 260; 270; 300]%float
         [0x123; 0x124; 0x125; 0x123; 0x124; 0x125; 0x900; 0x125; 0x123; 0x124; 0x900]
         0x124
       = map fst (List.filter (fun r => snd r =? 0x124) records).
Proof.
  destruct (series_follow_the_rows Samples.float_of_decimal MoreSamples.capture 11
              [0; 10; 20; 100; 110; 120; 150; 220; 260; 270; 300]%float
              [0x123; 0x124; 0x125; 0x123; 0x124; 0x125; 0x900; 0x125; 0x123; 0x124; 0x900])
    as (records & Hrec & Hseries & _).
  - vm_compute. reflexivity.
  - exists records. split; [exact Hrec | apply Hseries].
Defined.

(** ** Records read from a cell text *)
Section RecordFacts.
Import Py Xml Loader.

Variable float_of_string : string -> option float.

Lemma append_empty (s : string) : s +:+ EmptyString = s.
Proof.
  induction s as [| c s IH]; [reflexivity |].
  change (String c s +:+ EmptyString) with (String c (s +:+ EmptyString)).
  rewrite IH. reflexivity.
Qed.

Lemma split_cons (sep c : ascii) (s : string) :
  split sep (String c s)
  = if Ascii.eqb c sep then EmptyString :: split sep s
    else match split sep s with
         | f :: fs => String c f :: fs
         | [] => [String c EmptyString]
         end.
Proof. reflexivity. Qed.

Lemma split_length (sep : ascii) (s : string) :
  length (split sep s) = S (count_occ Ascii.ascii_dec (list_ascii_of_string s) sep).
Proof.
  induction s as [| c s IH]; [reflexivity |].
  rewrite split_cons. cbn [list_ascii_of_string].
  destruct (Ascii.eqb_spec c sep) as [-> | Hne].
  - rewrite count_occ_cons_eq by reflexivity. cbn [length]. rewrite IH. reflexivity.
  - rewrite count_occ_cons_neq by exact Hne. rewrite <- IH.
    destruct (split sep s); [discriminate IH | reflexivity].
Qed.

Lemma split_field (sep : ascii) (f s : string) :
  ~ In sep (list_ascii_of_string f) ->
  split sep (f +:+ String sep s) = f :: split sep s.
Proof.
  induction f as [| c f IH]; intros Hf.
  - change (EmptyString +:+ String sep s) with (String sep s).
    rewrite split_cons, Ascii.eqb_refl. reflexivity.
  - change (String c f +:+ String sep s) with (String c (f +:+ String sep s)).
    rewrite split_cons. cbn [list_ascii_of_string] in Hf.
    destruct (Ascii.eqb_spec c sep) as [-> | Hne]; [exfalso; apply Hf; left; reflexivity |].
    rewrite IH by (intros H; apply Hf; right; exact H). reflexivity.
Qed.

Lemma split_last (sep : ascii) (f : string) :
  ~ In sep (list_ascii_of_string f) -> split sep f = [f].
Proof.
  induction f as [| c f IH]; intros Hf; [reflexivity |].
  rewrite split_cons. cbn [list_ascii_of_string] in Hf.
  destruct (Ascii.eqb_spec c sep) as [-> | Hne]; [exfalso; apply Hf; left; reflexivity |].
  rewrite IH by (intros H; apply Hf; right; exact H). reflexivity.
Qed.

(** X17: what [parse_record] makes of a cell text.  A text with fewer
    than five [;] yields no record: the load raises.  A text made of six
    fields without [;], separated by [;] and followed by nothing or by a
    [;] and anything, yields the float of its second field and the
    hexadecimal value of its sixth, whatever the other fields hold. *)
Theorem parse_record_on_delimited_text :
  (forall s : string,
      (count_occ Ascii.ascii_dec (list_ascii_of_string s) ";"%char < 5)%nat ->
      exists e, parse_record float_of_string (Some s) = Raise e)
  /\ (forall (f0 f1 f2 f3 f4 f5 rest : string) (time_ms : float) (id_hex : Z),
         Forall (fun f => ~ In ";"%char (list_ascii_of_string f)) [f0; f1; f2; f3; f4; f5] ->
         rest = EmptyString \/ starts_with ";" rest = true ->
         float_of_string f1 = Some time_ms ->
         int16 f5 = Some id_hex ->
         parse_record float_of_string
           (Some (f0 +:+ String ";" (f1 +:+ String ";" (f2 +:+ String ";"
                    (f3 +:+ String ";" (f4 +:+ String ";" (f5 +:+ rest)))))))
         = Ok (time_ms, id_hex)).
Proof.
  split.
  - intros s Hs. apply parse_record_malformed. cbn [malformed]. left.
    rewrite split_length. lia.
  - intros f0 f1 f2 f3 f4 f5 rest t i Hf Hrest Ht Hi.
    repeat (apply Forall_cons_1 in Hf as [? Hf]).
    assert (H5 : exists more, split ";" (f5 +:+ rest) = f5 :: more).
    { destruct Hrest as [-> | Hrest].
      - exists []. rewrite append_empty. apply split_last. assumption.
      - destruct rest as [| c rest]; [discriminate |]. cbn in Hrest.
        apply Ascii.eqb_eq in Hrest. subst c.
        exists (split ";" rest). apply split_field. assumption. }
    destruct H5 as (more & H5).
    apply parse_record_Ok.
    eexists _, f1, f5. split; [reflexivity |].
    rewrite !split_field, H5 by assumption. cbn [nth_error].
    repeat split; assumption.
Qed.

End RecordFacts.

Lemma parse_record_on_delimited_text_witness :
  (exists e, Loader.parse_record Samples.float_of_decimal (Some "1;100;a;123"%string)
             = Py.Raise e)
  /\ Loader.parse_record Samples.float_of_decimal
       (Some ("Rx" +:+ String ";" ("100.5" +:+ String ";" ("" +:+ String ";"
                ("x" +:+ String ";" ("y" +:+ String ";" ("18FEF100" +:+ ";8;00 11"))))))%string)
     = Py.Ok (100.5%float, 0x18FEF100).
Proof.
  split.
  - apply (proj1 (parse_record_on_delimited_text Samples.float_of_decimal)).
    vm_compute. lia.
  - apply (proj2 (parse_record_on_delimited_text Samples.float_of_decimal)).
    + repeat (constructor; [vm_compute; intuition discriminate |]). constructor.
    + right. reflexivity.
    + vm_compute. reflexivity.
    + reflexivity.
Defined.

(** ** The whole program *)

Section MainFacts.
Import Decoder Py Xml Loader Classifier Reference Main.

Variable float_of_string : string -> option float.
Variable read_content : string -> option element.

Lemma parse_pgn_file_Ok (root : element) (pgn_values : gset Z) :
  parse_pgn_file root = Ok pgn_values ->
  forall v : Z,
    v ∈ pgn_values <-> In (Ok v) (omap pgn_record (xpath_rows (fun _ => true) root)).
Proof.
  rewrite parse_pgn_file_collect.
  destruct (collect (omap pgn_record (xpath_rows (fun _ => true) root)))
    as [values | e] eqn:Hc; cbn [bind]; [| discriminate].
  intros [= <-] v. apply collect_Ok in Hc. rewrite Hc.
  rewrite elem_of_list_to_set, list_elem_of_In, in_map_iff. split.
  - intros H. exists v. split; [reflexivity | exact H].
  - intros (v' & [= ->] & H). exact H.
Qed.

Lemma report_keys (time_values : list float) (id_values : list Z)
    (pgn_values : gset Z) (p : float) (r : report) :
  plot_data time_values id_values pgn_values p = Ok r ->
  forall k,
    k ∈ map fst (category_A_txt r) \/ k ∈ category_B_txt r
    <-> exists id, eligible pgn_values id
                   /\ (2 <= length (filtered_time_values time_values id_values id))%nat
                   /\ k = hex id.
Proof.
  intros Hr k.
  destruct (plot_data_files time_values id_values pgn_values p)
    as (r' & Hr' & Hfinal & _ & HA & HB & _).
  rewrite Hr in Hr'. injection Hr' as <-. rewrite Hfinal in HA, HB.
  rewrite HA, HB. split.
  - intros [[c Hc] | Hk].
    + apply classify_category_A in Hc as (id & _ & Hid & -> & _).
      exists id. split; [apply Hid |]. split.
      * apply (recorded_occurrences time_values id_values pgn_values p). tauto.
      * rewrite (eligible_can_id pgn_values id) by apply Hid. reflexivity.
    + apply classify_category_B in Hk as (id & _ & Hid & ->).
      exists id. split; [apply Hid |]. split.
      * apply (recorded_occurrences time_values id_values pgn_values p). tauto.
      * rewrite (eligible_can_id pgn_values id) by apply Hid. reflexivity.
  - intros (id & He & Hlen & ->).
    assert (Hin : id ∈ elements (list_to_set id_values : gset Z)).
    { apply elem_of_unique_ids.
      apply (series_member time_values id_values).
      rewrite cycle_times_differences, differences_length. lia. }
    rewrite <- (eligible_can_id pgn_values id He).
    destruct (flagged_or_cleared time_values id_values pgn_values p id He Hlen)
      as [Hf | Hc].
    + left. eexists. apply classify_category_A. exists id. auto.
    + right. apply classify_category_B. exists id. auto.
Qed.

(** X18: the whole program.  A run that ends with the reports was given
    four arguments, the last one an integer, and two readable documents;
    and the identifiers written to [category_A.txt] and [category_B.txt]
    are then exactly the [hex] of the values [id] with [0 <= id < 0x800]
    that no row of the reference document gives and that at least two
    rows of the window of the capture carry. *)
Theorem finished_run_reports (argv : list string) (r : report) :
  main float_of_string read_content argv = Finished r ->
  exists (program data_file pgn_file output_dir num : string) (num_rows : Z)
         (pgn_root root : element) (records : list (float * Z)),
    argv = [program; data_file; pgn_file; output_dir; num]
    /\ int10 num = Some num_rows
    /\ read_content pgn_file = Some pgn_root
    /\ read_content data_file = Some root
    /\ omap (row_record float_of_string) (xpath_rows (row_window num_rows) root)
       = map Ok records
    /\ forall k,
         k ∈ map fst (category_A_txt r) \/ k ∈ category_B_txt r
         <-> exists id,
               k = hex id /\ 0 <= id < 0x800
               /\ ~ In (Ok id) (omap pgn_record (xpath_rows (fun _ => true) pgn_root))
               /\ (2 <= length (List.filter (fun rec => (snd rec =? id)%Z) records))%nat.
Proof.
  unfold main. intros H.
  destruct (length argv =? 5)%nat eqn:Hlen; cbn [negb] in H; [| discriminate].
  apply Nat.eqb_eq in Hlen.
  destruct argv as [| program [| data_file [| pgn_file [| output_dir [| num [| ? ?]]]]]];
    try discriminate Hlen.
  cbn [nth] in H.
  destruct (int10 num) as [num_rows |] eqn:Hnum; [| discriminate].
  unfold load_reference, load_capture in H.
  destruct (read_content pgn_file) as [pgn_root |] eqn:Hpgn_file; [| discriminate].
  destruct (parse_pgn_file pgn_root) as [pgn_values | e] eqn:Hpgn; [| discriminate].
  destruct (read_content data_file) as [root |] eqn:Hdata_file; [| discriminate].
  destruct (parse_ods_file float_of_string root num_rows) as [[tv ids] | e] eqn:Hods;
    [| discriminate].
  destruct (plot_data tv ids pgn_values default_threshold_percentage) as [r' | e] eqn:Hplot;
    [| discriminate].
  injection H as <-.
  rewrite parse_ods_file_load_rows in Hods.
  apply load_rows_Ok in Hods as (records & Hc & -> & ->).
  apply collect_Ok in Hc.
  exists program, data_file, pgn_file, output_dir, num, num_rows, pgn_root, root, records.
  repeat (split; [reflexivity || assumption |]).
  intros k. rewrite (report_keys _ _ _ _ _ Hplot k).
  split; intros (id & H); exists id.
  - destruct H as ([Hr Hp] & Hlen' & ->).
    rewrite filtered_time_values_records, length_map in Hlen'.
    split; [reflexivity |]. split; [exact Hr |]. split; [| exact Hlen'].
    intros Hin. apply Hp. rewrite get_can_id_small by lia.
    apply (parse_pgn_file_Ok _ _ Hpgn), Hin.
  - destruct H as (-> & Hr & Hp & Hlen').
    split; [| split; [| reflexivity]].
    + split; [exact Hr |]. rewrite get_can_id_small by lia.
      intros Hin. apply Hp, (parse_pgn_file_Ok _ _ Hpgn), Hin.
    + rewrite filtered_time_values_records, length_map. exact Hlen'.
Qed.

End MainFacts.

Lemma finished_run_reports_witness :
  exists r,
    Main.main Samples.float_of_decimal MoreSamples.archives MoreSamples.argv
    = Main.Finished r
    /\ forall k,
         k ∈ map fst (Classifier.category_A_txt r) \/ k ∈ Classifier.category_B_txt r ->
         exists id, k = Py.hex id /\ 0 <= id < 0x800.
Proof.
  destruct (Main.main Samples.float_of_decimal MoreSamples.archives MoreSamples.argv)
    as [m | e | r] eqn:H; [vm_compute in H; discriminate .. |].
  exists r. split; [reflexivity |]. intros k Hk.
  destruct (finished_run_reports Samples.float_of_decimal MoreSamples.archives
              MoreSamples.argv r H)
    as (program & data_file & pgn_file & output_dir & num & num_rows & pgn_root & root
        & records & _ & _ & _ & _ & _ & Hkeys).
  apply Hkeys in Hk as (id & -> & Hr & _). exists id. auto.
Defined.
